(** * rtl-sdr-audio: the decimation / demodulation callback and the exit path

    A shallow embedding of [src/rtl-sdr-audio.c]: the constants and globals of
    the translation unit, [sighandler], [sdr_callback] and the tail of [main]
    that turns the return code of [rtlsdr_read_async] into the exit status.

    The C code computes in [double] and stores into a [float] array.  The
    embedding is written once, over an interface [arith] of the arithmetic
    the callback uses, and comes with two instances:
    - [ieee]: IEEE-754 binary64 (Rocq's primitive floats) with the store into
      [g_audio_buffer] rounding to binary32; it computes, bit for bit;
    - [exact]: the real numbers, for statements about ideal magnitudes. *)

From Stdlib Require Import Ascii String ZArith List Bool Lia Strings.Byte.
From Stdlib Require Import Floats.
From Stdlib Require Import Reals Lra.
Import ListNotations.

Local Open Scope Z_scope.

(** ** Constants of the translation unit *)

Definition AUDIO_SAMPLE_RATE : Z := 48000.
Definition AUDIO_CHANNELS : Z := 2.
Definition AUDIO_BUFFER_LENGTH : Z := 16384.

Definition SDR_SAMPLE_RATE : Z := 240000.
Definition SDR_SAMPLE_RATIO : Z := 5.
Definition SDR_BUFFER_LENGTH : Z := AUDIO_BUFFER_LENGTH * SDR_SAMPLE_RATIO * 2.

(** ** Arrays

    A C array is a list; an access outside it is undefined behaviour in C and
    [None] here. *)

Definition rd {T : Type} (l : list T) (i : Z) : option T :=
  if i <? 0 then None else nth_error l (Z.to_nat i).

Fixpoint set_nth {T : Type} (l : list T) (n : nat) (v : T) : list T :=
  match l, n with
  | [], _ => []
  | _ :: t, O => v :: t
  | h :: t, S n' => h :: set_nth t n' v
  end.

Definition wr {T : Type} (l : list T) (i : Z) (v : T) : option (list T) :=
  if (0 <=? i) && (i <? Z.of_nat (length l))
  then Some (set_nth l (Z.to_nat i) v)
  else None.

(** The value of an [unsigned char], promoted to [int]. *)
Definition uchar (b : byte) : Z := Z.of_N (Byte.to_N b).

(** ** The arithmetic of the callback *)

Record arith : Type := {
  dbl : Type;                       (* double *)
  flt : Type;                       (* float, the element type of g_audio_buffer *)
  d_of_int : Z -> dbl;              (* int converted to double *)
  d_127_5 : dbl;                    (* the literal 127.5 *)
  d_add : dbl -> dbl -> dbl;
  d_sub : dbl -> dbl -> dbl;
  d_mul : dbl -> dbl -> dbl;
  d_div : dbl -> dbl -> dbl;
  d_sqrt : dbl -> dbl;
  d_gt : dbl -> dbl -> bool;        (* x > y *)
  d_to_flt : dbl -> flt;            (* double stored into a float object *)
  d_to_int : dbl -> Z               (* (int) x *)
}.

Definition INT_MIN : Z := - 2 ^ 31.

(** The character the C source writes as a backslash followed by n. *)
Definition newline : string := String "010"%char EmptyString.

(** *** IEEE-754 instance *)

Module IEEE.

Definition of_int (z : Z) : float :=
  if z <? 0
  then PrimFloat.opp (PrimFloat.of_uint63 (Uint63.of_Z (- z)))
  else PrimFloat.of_uint63 (Uint63.of_Z z).

(** Conversion of a binary64 value to binary32 (24-bit significand,
    [emax = 128]), round to nearest even; the result is held as the
    binary64 number of the same value. *)
Definition to_binary32 (x : float) : float :=
  match Prim2SF x with
  | S754_finite s m e => SF2Prim (binary_round 24 128 s m e)
  | _ => x
  end.

(** Truncation toward zero.  Outside the range of [int] (and on NaN) the C
    conversion is undefined; the value given here is the one of the x86
    conversion instruction. *)
Definition to_int (x : float) : Z :=
  match Prim2SF x with
  | S754_zero _ => 0
  | S754_finite s m e =>
      let v := if 0 <=? e then Z.shiftl (Zpos m) e else Z.shiftr (Zpos m) (- e) in
      let r := if s then - v else v in
      if (INT_MIN <=? r) && (r <? 2 ^ 31) then r else INT_MIN
  | _ => INT_MIN
  end.

Definition gt (x y : float) : bool := PrimFloat.ltb y x.

End IEEE.

Definition ieee : arith := {|
  dbl := float;
  flt := float;
  d_of_int := IEEE.of_int;
  d_127_5 := 127.5%float;
  d_add := PrimFloat.add;
  d_sub := PrimFloat.sub;
  d_mul := PrimFloat.mul;
  d_div := PrimFloat.div;
  d_sqrt := PrimFloat.sqrt;
  d_gt := IEEE.gt;
  d_to_flt := IEEE.to_binary32;
  d_to_int := IEEE.to_int
|}.

(** *** Real-number instance *)

Module Exact.

Definition gt (x y : R) : bool := if Rlt_dec y x then true else false.

Definition to_int (x : R) : Z :=
  if Rle_dec 0 x then Int_part x else - Int_part (- x).

End Exact.

Definition exact : arith := {|
  dbl := R;
  flt := R;
  d_of_int := IZR;
  d_127_5 := (255 / 2)%R;
  d_add := Rplus;
  d_sub := Rminus;
  d_mul := Rmult;
  d_div := Rdiv;
  d_sqrt := sqrt;
  d_gt := Exact.gt;
  d_to_flt := fun x => x;
  d_to_int := Exact.to_int
|}.

Declare Scope dbl_scope.
Delimit Scope dbl_scope with dbl.
Notation "x + y" := (d_add _ x y) : dbl_scope.
Notation "x - y" := (d_sub _ x y) : dbl_scope.
Notation "x * y" := (d_mul _ x y) : dbl_scope.
Notation "x / y" := (d_div _ x y) : dbl_scope.

(** ** Globals and observable effects *)

Section Program.

Variable A : arith.

(** What the program does to the outside, in order. *)
Inductive event : Type :=
| EvStderr (s : string)                       (* fprintf(stderr, s) *)
| EvLibraryError (r : Z)                      (* fprintf(stderr, "\nLibrary error %d, exiting...\n", r) *)
| EvMeter (width : Z)                         (* fprintf(stderr, "\33[2K\r%0*d\r", width, 0) *)
| EvWritei (frames : list (flt A)) (n : Z)    (* snd_pcm_writei(g_audio_handle, frames, n) *)
| EvCancelAsync                               (* rtlsdr_cancel_async(sdr_dev) *)
| EvSdrClose                                  (* rtlsdr_close(sdr_dev) *)
| EvPcmDrain                                  (* snd_pcm_drain(g_audio_handle) *)
| EvPcmClose.                                 (* snd_pcm_close(g_audio_handle) *)

Record state : Type := {
  g_audio_buffer : list (flt A);   (* float g_audio_buffer[AUDIO_BUFFER_LENGTH * AUDIO_CHANNELS] *)
  audio_channel : Z;               (* static int audio_channel *)
  do_exit : Z;                     (* static int do_exit *)
  trace : list event
}.

Definition emit (st : state) (evs : list event) : state :=
  {| g_audio_buffer := g_audio_buffer st;
     audio_channel := audio_channel st;
     do_exit := do_exit st;
     trace := trace st ++ evs |}.

(** *** [sighandler] *)

Definition sighandler (signum : Z) (st : state) : state :=
  {| g_audio_buffer := g_audio_buffer st;
     audio_channel := audio_channel st;
     do_exit := 1;
     trace := trace st ++ [EvStderr ("Signal caught, exiting!" ++ newline)%string; EvCancelAsync] |}.

(** *** [sdr_callback] *)

(** One raw sample as an amplitude: [((b & 0xFF) - 127.5) / 127.5]. *)
Definition sample (b : byte) : dbl A :=
  ((d_of_int A (Z.land (uchar b) 255) - d_127_5 A) / d_127_5 A)%dbl.

(** The offset of the I sample [k] of output frame [j]; its Q sample is
    one further. *)
Definition iq_index (j k : Z) : Z := j * SDR_SAMPLE_RATIO * 2 + k * 2.

(** The loop over [k]: [n] iterations are left, the counter is [k]. *)
Fixpoint sum_loop (iqBuffer : list byte) (j : Z) (n : nat) (k : Z)
    (sumI sumQ : dbl A) : option (dbl A * dbl A) :=
  match n with
  | O => Some (sumI, sumQ)
  | S n' =>
      match rd iqBuffer (iq_index j k), rd iqBuffer (iq_index j k + 1) with
      | Some bi, Some bq =>
          sum_loop iqBuffer j n' (k + 1) (sumI + sample bi)%dbl (sumQ + sample bq)%dbl
      | _, _ => None
      end
  end.

(** The pair [(i, q)] of output frame [j]. *)
Definition decimate (iqBuffer : list byte) (j : Z) : option (dbl A * dbl A) :=
  match sum_loop iqBuffer j (Z.to_nat SDR_SAMPLE_RATIO) 0
          (d_of_int A 0) (d_of_int A 0) with
  | None => None
  | Some (sumI, sumQ) =>
      Some ((sumI / d_of_int A SDR_SAMPLE_RATIO)%dbl,
            (sumQ / d_of_int A SDR_SAMPLE_RATIO)%dbl)
  end.

(** [a = sqrt((i * i) + (q * q))] *)
Definition magnitude (i q : dbl A) : dbl A := d_sqrt A (i * i + q * q)%dbl.

(** [if (audio_channel == 0 || audio_channel == sel) g_audio_buffer[idx] = v] *)
Definition store (ch sel : Z) (buf : list (flt A)) (idx : Z) (v : dbl A)
    : option (list (flt A)) :=
  if (ch =? 0) || (ch =? sel) then wr buf idx (d_to_flt A v) else Some buf.

(** The loop over [j]: [n] iterations are left, the counter is [j]. *)
Fixpoint frame_loop (iqBuffer : list byte) (ch : Z) (n : nat) (j : Z)
    (maxA : dbl A) (buf : list (flt A)) : option (dbl A * list (flt A)) :=
  match n with
  | O => Some (maxA, buf)
  | S n' =>
      match decimate iqBuffer j with
      | None => None
      | Some (i, q) =>
          let a := magnitude i q in
          let maxA := if d_gt A a maxA then a else maxA in
          match store ch 1 buf (j * 2) q with
          | None => None
          | Some buf1 =>
              match store ch 2 buf1 (j * 2 + 1) q with
              | None => None
              | Some buf2 => frame_loop iqBuffer ch n' (j + 1) maxA buf2
              end
          end
      end
  end.

Definition sdr_callback (iqBuffer : list byte) (len : Z) (st : state)
    : option state :=
  if negb (do_exit st =? 0) then Some st
  else
    match frame_loop iqBuffer (audio_channel st)
            (Z.to_nat AUDIO_BUFFER_LENGTH) 0 (d_of_int A 0) (g_audio_buffer st) with
    | None => None
    | Some (maxA, buf) =>
        Some {| g_audio_buffer := buf;
                audio_channel := audio_channel st;
                do_exit := do_exit st;
                trace := trace st ++
                  [EvMeter (d_to_int A (maxA * d_of_int A 30)%dbl);
                   EvWritei (firstn (Z.to_nat (AUDIO_BUFFER_LENGTH * AUDIO_CHANNELS)) buf)
                            AUDIO_BUFFER_LENGTH] |}
    end.

(** *** The end of [main]

    [r] is what [rtlsdr_read_async] returned; the result is the state after
    the shutdown calls and the value [main] returns. *)

Definition wrap32 (z : Z) : Z := (z + 2 ^ 31) mod 2 ^ 32 - 2 ^ 31.

Definition main_exit (r : Z) (st : state) : state * Z :=
  let msg := if negb (do_exit st =? 0)
             then EvStderr (newline ++ "User cancel, exiting..." ++ newline)%string
             else EvLibraryError r in
  (emit st [msg; EvSdrClose; EvPcmDrain; EvPcmClose],
   if r >=? 0 then r else wrap32 (- r)).

End Program.

Arguments g_audio_buffer {A} _.
Arguments audio_channel {A} _.
Arguments do_exit {A} _.
Arguments trace {A} _.

(** ** Spec-level definitions

    The decimated pair as the specification words it: the arithmetic mean,
    over [k] in [[0, DecimationRatio)], of the offset-127.5 amplitudes of the
    raw bytes at [j * ratio * 2 + k * 2] (I) and one further (Q). *)

Section SpecLevel.

Variable A : arith.

Fixpoint zrange (from : Z) (n : nat) : list Z :=
  match n with
  | O => []
  | S n' => from :: zrange (from + 1) n'
  end.

(** The raw buffer as a sequence of unsigned 8-bit values. *)
Definition raw (rawBuffer : list byte) (idx : Z) : Z :=
  uchar (nth (Z.to_nat idx) rawBuffer "000"%byte).

(** Value [v] maps to amplitude [(v - 127.5) / 127.5]. *)
Definition amplitude (v : Z) : dbl A :=
  ((d_of_int A v - d_127_5 A) / d_127_5 A)%dbl.

Definition sum_of (xs : list (dbl A)) : dbl A :=
  fold_left (d_add A) xs (d_of_int A 0).

Definition mean_of (xs : list (dbl A)) : dbl A :=
  (sum_of xs / d_of_int A (Z.of_nat (List.length xs)))%dbl.

Definition decimated_I_spec (rawBuffer : list byte) (ratio j : Z) : dbl A :=
  mean_of (map (fun k => amplitude (raw rawBuffer (j * ratio * 2 + k * 2)))
               (zrange 0 (Z.to_nat ratio))).

Definition decimated_Q_spec (rawBuffer : list byte) (ratio j : Z) : dbl A :=
  mean_of (map (fun k => amplitude (raw rawBuffer (j * ratio * 2 + k * 2 + 1)))
               (zrange 0 (Z.to_nat ratio))).

End SpecLevel.

(** ** Derived notions

    What one invocation computes for frame [j], read off the loop body. *)

Section Derived.

Variable A : arith.

(** The value [q] of frame [j], as the loop body has it when it stores. *)
Definition q_at (iqBuffer : list byte) (j : Z) : dbl A :=
  match decimate A iqBuffer j with
  | Some (_, q) => q
  | None => d_of_int A 0
  end.

(** The value [a] of frame [j]. *)
Definition a_at (iqBuffer : list byte) (j : Z) : dbl A :=
  match decimate A iqBuffer j with
  | Some (i, q) => magnitude A i q
  | None => d_of_int A 0
  end.

(** [if (a > maxA) maxA = a] *)
Definition bump (maxA a : dbl A) : dbl A := if d_gt A a maxA then a else maxA.

Definition peak_from (iqBuffer : list byte) (js : list Z) (maxA : dbl A) : dbl A :=
  fold_left (fun m j => bump m (a_at iqBuffer j)) js maxA.

(** [maxA] when the loop over [j] is left. *)
Definition peak (iqBuffer : list byte) : dbl A :=
  peak_from iqBuffer (zrange 0 (Z.to_nat AUDIO_BUFFER_LENGTH)) (d_of_int A 0).

(** Slot [idx] of the interleaved buffer is stored to under routing [ch]:
    even slots (left) for 0 and 1, odd slots (right) for 0 and 2. *)
Definition selects (ch idx : Z) : bool :=
  (ch =? 0) || (ch =? (if Z.even idx then 1 else 2)).

(** The events one invocation appends. *)
Definition emitted (iqBuffer : list byte) (buf : list (flt A)) : list (event A) :=
  [EvMeter A (d_to_int A (peak iqBuffer * d_of_int A 30)%dbl);
   EvWritei A (firstn (Z.to_nat (AUDIO_BUFFER_LENGTH * AUDIO_CHANNELS)) buf)
            AUDIO_BUFFER_LENGTH].

(** The output array has its declared size. *)
Definition sized (st : state A) : Prop :=
  Z.of_nat (List.length (g_audio_buffer st)) = AUDIO_BUFFER_LENGTH * AUDIO_CHANNELS.

(** The comparison [>] never holds between a value and itself, and a value
    that is not above [m] is not above anything that is above [m]. *)
Record gt_order : Prop := {
  gt_irrefl : forall x, d_gt A x x = false;
  gt_chain : forall a m c, d_gt A a m = true -> d_gt A c m = false -> d_gt A c a = false
}.

End Derived.

Arguments sized {A} st.

(** ** Start-up state and test buffers *)

(** The globals as [main] leaves them before streaming starts: the buffer is
    zero-initialised static storage, [audio_channel] is what [-c] gave. *)
Definition initial_state (A : arith) (ch : Z) : state A :=
  {| g_audio_buffer :=
       repeat (d_to_flt A (d_of_int A 0)) (Z.to_nat (AUDIO_BUFFER_LENGTH * AUDIO_CHANNELS));
     audio_channel := ch;
     do_exit := 0;
     trace := [] |}.

(** A raw buffer of the expected length, every byte [b]. *)
Definition constant_buffer (b : byte) : list byte :=
  repeat b (Z.to_nat SDR_BUFFER_LENGTH).

(** The mean of five copies of the amplitude of [b], added up as the loop
    over [k] does. *)
Definition constant_mean (A : arith) (b : byte) : dbl A :=
  mean_of A (map (fun _ : Z => amplitude A (uchar b)) (zrange 0 (Z.to_nat SDR_SAMPLE_RATIO))).

(** ** The partial sums of the inner loop, in binary64

    Rounding makes the sums of the loop over [k] depend on the bytes in a way
    no closed formula describes, but there are few of them: [sums k] holds
    every value [sumQ] (or [sumI]) can have after [k] iterations, as a search
    tree.  The trees are computed; what is proved about them is that
    membership is sound and that each is closed under one more iteration. *)

Module Table.

Inductive tree : Type :=
| Leaf
| Node (l : tree) (x : float) (r : tree).

Fixpoint mem (x : float) (t : tree) : bool :=
  match t with
  | Leaf => false
  | Node l y r =>
      if PrimFloat.Leibniz.eqb x y then true
      else if PrimFloat.ltb x y then mem x l else mem x r
  end.

Fixpoint elements (t : tree) : list float :=
  match t with
  | Leaf => []
  | Node l y r => elements l ++ y :: elements r
  end.

(** Merge of two increasing lists, equal heads kept once. *)
Fixpoint merge (l1 : list float) : list float -> list float :=
  fix aux (l2 : list float) : list float :=
    match l1, l2 with
    | [], _ => l2
    | _, [] => l1
    | x :: t1, y :: t2 =>
        if PrimFloat.ltb x y then x :: merge t1 l2
        else if PrimFloat.ltb y x then y :: aux t2
        else x :: merge t1 t2
    end.

Fixpoint merge_pairs (ls : list (list float)) : list (list float) :=
  match ls with
  | a :: b :: t => merge a b :: merge_pairs t
  | _ => ls
  end.

Fixpoint merge_all (fuel : nat) (ls : list (list float)) : list float :=
  match fuel with
  | O => concat ls
  | S f =>
      match ls with
      | [] => []
      | [l] => l
      | _ => merge_all f (merge_pairs ls)
      end
  end.

(** A tree of depth at most [d] from the front of an increasing list. *)
Fixpoint build (d : nat) (l : list float) : tree * list float :=
  match d with
  | O => (Leaf, l)
  | S d' =>
      let '(lt, l1) := build d' l in
      match l1 with
      | [] => (lt, [])
      | x :: l2 => let '(rt, l3) := build d' l2 in (Node lt x rt, l3)
      end
  end.

(** The 256 amplitudes [(v - 127.5) / 127.5], increasing. *)
Definition amplitudes : list float := map (amplitude ieee) (zrange 0 256).

Definition step (t : tree) : tree :=
  let S := elements t in
  fst (build 14 (merge_all (List.length S)
                   (map (fun s => map (d_add ieee s) amplitudes) S))).

Definition sums0 : tree := Node Leaf (d_of_int ieee 0) Leaf.
Definition sums1 : tree := Eval vm_compute in step sums0.
Definition sums2 : tree := Eval vm_compute in step sums1.
Definition sums3 : tree := Eval vm_compute in step sums2.
Definition sums4 : tree := Eval vm_compute in step sums3.
Definition sums5 : tree := Eval vm_compute in step sums4.

Definition closed_under_add (t t' : tree) : bool :=
  forallb (fun s => forallb (fun a => mem (d_add ieee s a) t') amplitudes) (elements t).

End Table.

(** [-1 <= x <= 1], in binary64. *)
Definition in_unit_range (x : float) : bool :=
  PrimFloat.leb (-1) x && PrimFloat.leb x 1.

(** ** The magnitudes, in binary64

    [quotients] lists every value [i] (or [q]) can have, [squares] holds
    their squares as a search tree. *)

Module Levels.

Definition quotients : list float :=
  map (fun s => d_div ieee s (d_of_int ieee SDR_SAMPLE_RATIO))
      (Table.elements Table.sums5).

Definition squares : Table.tree :=
  Eval vm_compute in
    fst (Table.build 14
           (Table.merge_all (List.length quotients)
              (map (fun x => [d_mul ieee x x]) quotients))).

(** [0 < a <= sqrt 2], and [a * 30] in [[0, 43)]. *)
Definition magnitude_ok (a : float) : bool :=
  PrimFloat.ltb 0 a && PrimFloat.leb a (PrimFloat.sqrt 2) &&
  PrimFloat.leb 0 (d_mul ieee a (d_of_int ieee 30)) &&
  PrimFloat.ltb (d_mul ieee a (d_of_int ieee 30)) 43.

(** [magnitude_ok (sqrt (x + y))] for every pair taken from [l], each
    unordered pair looked at once. *)
Fixpoint pairs_ok (l : list float) : bool :=
  match l with
  | [] => true
  | x :: t =>
      forallb (fun y => magnitude_ok (d_sqrt ieee (d_add ieee x y))) l && pairs_ok t
  end.

(** One fifth of the least amplitude, as a [float]: the least level. *)
Definition least_level : float :=
  d_to_flt ieee (d_div ieee (amplitude ieee 128) (d_of_int ieee SDR_SAMPLE_RATIO)).

End Levels.

(** ** While [rtlsdr_read_async] runs

    The library hands filled buffers to [sdr_callback]; a signal may be
    caught, which runs [sighandler].  The handler is taken to run between two
    invocations of the callback, not inside one. *)

Inductive occurrence : Type :=
| Deliver (iqBuffer : list byte) (len : Z)
| Caught (signum : Z).

Definition occur (A : arith) (o : occurrence) (st : state A) : option (state A) :=
  match o with
  | Deliver iqBuffer len => sdr_callback A iqBuffer len st
  | Caught signum => Some (sighandler A signum st)
  end.

Fixpoint run (A : arith) (os : list occurrence) (st : state A) : option (state A) :=
  match os with
  | [] => Some st
  | o :: os' =>
      match occur A o st with
      | None => None
      | Some st' => run A os' st'
      end
  end.

(** Every delivered buffer holds at least [SDR_BUFFER_LENGTH] bytes. *)
Definition full_buffers (os : list occurrence) : Prop :=
  forall iqBuffer len,
    In (Deliver iqBuffer len) os ->
    SDR_BUFFER_LENGTH <= Z.of_nat (List.length iqBuffer).

(** The number of deliveries before the first signal. *)
Fixpoint deliveries_before_signal (os : list occurrence) : nat :=
  match os with
  | Deliver _ _ :: os' => S (deliveries_before_signal os')
  | _ => O
  end.

(** The last buffer delivered before the first signal. *)
Fixpoint last_before_signal (os : list occurrence) : option (list byte) :=
  match os with
  | Deliver iqBuffer _ :: os' =>
      match last_before_signal os' with
      | Some later => Some later
      | None => Some iqBuffer
      end
  | _ => None
  end.

Fixpoint caught_count (os : list occurrence) : nat :=
  match os with
  | [] => O
  | Caught _ :: os' => S (caught_count os')
  | Deliver _ _ :: os' => caught_count os'
  end.

(** What one run of [sighandler] appends to the trace. *)
Definition handler_output (A : arith) : list (event A) :=
  [EvStderr A ("Signal caught, exiting!" ++ newline)%string; EvCancelAsync A].

Definition is_writei {A : arith} (e : event A) : bool :=
  match e with
  | EvWritei _ _ _ => true
  | _ => false
  end.

Definition is_meter {A : arith} (e : event A) : bool :=
  match e with
  | EvMeter _ _ => true
  | _ => false
  end.

(** The number of calls of [snd_pcm_writei] in a trace. *)
Definition sink_writes {A : arith} (tr : list (event A)) : nat :=
  List.length (filter is_writei tr).

(** The output array with the value of each frame in both of its slots:
    [q 0; q 0; q 1; q 1; ...], converted to [float]. *)
Definition interleaved (A : arith) (iqBuffer : list byte) : list (flt A) :=
  map (fun idx => d_to_flt A (q_at A iqBuffer (idx / 2)))
      (zrange 0 (Z.to_nat (AUDIO_BUFFER_LENGTH * AUDIO_CHANNELS))).

(** ** [main], from its first line to the streaming call

    The collaborators (the C library, [convenience.c], ALSA, librtlsdr) are
    not part of the translation unit; what they answer is given by an
    [environment].  [getopt] is represented by what it returns, call after
    call: the option character and [optarg]. *)

Definition SIGINT : Z := 2.
Definition SIGQUIT : Z := 3.
Definition SIGPIPE : Z := 13.
Definition SIGTERM : Z := 15.
Definition EXIT_FAILURE : Z := 1.
Definition AUDIO_DEVICE : string := "default"%string.

Record environment (A : arith) : Type := {
  atoi : string -> Z;
  atof : string -> dbl A;
  atofs_uint32 : string -> Z;             (* (uint32_t)atofs(optarg) *)
  verbose_device_search : string -> Z;
  snd_pcm_open : Z;                       (* what the call returns *)
  snd_pcm_set_params : Z;
  rtlsdr_open : Z -> Z;                   (* by device index *)
  nearest_gain : Z -> Z;
  deliveries : list occurrence;           (* what happens inside rtlsdr_read_async *)
  rtlsdr_read_async : Z                   (* and what it returns *)
}.

Arguments atoi {A} _ _.
Arguments atof {A} _ _.
Arguments atofs_uint32 {A} _ _.
Arguments verbose_device_search {A} _ _.
Arguments snd_pcm_open {A} _.
Arguments snd_pcm_set_params {A} _.
Arguments rtlsdr_open {A} _ _.
Arguments nearest_gain {A} _ _.
Arguments deliveries {A} _.
Arguments rtlsdr_read_async {A} _.

(** The calls [main] makes before and at the start of streaming, in order. *)
Inductive call : Type :=
| Sigaction (signum : Z)
| VerboseDeviceSearch (s : string)
| Usage
| SndPcmOpen (device : string)
| ErrOpenAudio (err : Z)                  (* "Error opening audio device: %s\n" *)
| SndPcmSetParams (channels rate soft_resample latency : Z)
| ErrAudioParams (err : Z)                (* "Error setting audio device parameters: %s\n" *)
| RtlsdrOpen (index : Z)
| ErrOpenSdr (index : Z)                  (* "Failed to open rtlsdr device #%d.\n" *)
| VerboseSetSampleRate (rate : Z)
| VerboseSetFrequency (frequency : Z)
| VerboseAutoGain
| NearestGain (gain : Z)
| VerboseGainSet (gain : Z)
| VerbosePpmSet (ppm : Z)
| VerboseResetBuffer
| ReadingSamples                          (* "Reading samples in async mode...\n" *)
| RtlsdrReadAsync (buf_num buf_len : Z).

(** The locals of [main] the option loop assigns. *)
Record locals : Type := {
  sdr_dev_index : Z;
  sdr_dev_given : Z;
  sdr_gain : Z;
  sdr_ppm_error : Z;
  sdr_frequency : Z
}.

Definition initial_locals : locals :=
  {| sdr_dev_index := 0; sdr_dev_given := 0; sdr_gain := 0; sdr_ppm_error := 0;
     sdr_frequency := 148039000 |}.

Definition set_audio_channel {A : arith} (st : state A) (ch : Z) : state A :=
  {| g_audio_buffer := g_audio_buffer st;
     audio_channel := ch;
     do_exit := do_exit st;
     trace := trace st |}.

Inductive parsed (A : arith) : Type :=
| Parsed (ls : locals) (st : state A) (cs : list call)
| UsageExit (st : state A) (cs : list call).    (* usage() ends the process *)

Arguments Parsed {A} _ _ _.
Arguments UsageExit {A} _ _.

(** The [while ((opt = getopt(...)) != -1) switch (opt)] loop. *)
Fixpoint parse_options {A : arith} (env : environment A) (opts : list (ascii * string))
    (ls : locals) (st : state A) (cs : list call) : parsed A :=
  match opts with
  | [] => Parsed ls st cs
  | (opt, optarg) :: rest =>
      if Ascii.eqb opt "d"%char then
        parse_options env rest
          {| sdr_dev_index := verbose_device_search env optarg;
             sdr_dev_given := 1;
             sdr_gain := sdr_gain ls;
             sdr_ppm_error := sdr_ppm_error ls;
             sdr_frequency := sdr_frequency ls |}
          st (cs ++ [VerboseDeviceSearch optarg])
      else if Ascii.eqb opt "f"%char then
        parse_options env rest
          {| sdr_dev_index := sdr_dev_index ls;
             sdr_dev_given := sdr_dev_given ls;
             sdr_gain := sdr_gain ls;
             sdr_ppm_error := sdr_ppm_error ls;
             sdr_frequency := atofs_uint32 env optarg |}
          st cs
      else if Ascii.eqb opt "g"%char then
        parse_options env rest
          {| sdr_dev_index := sdr_dev_index ls;
             sdr_dev_given := sdr_dev_given ls;
             sdr_gain := d_to_int A (atof env optarg * d_of_int A 10)%dbl;
             sdr_ppm_error := sdr_ppm_error ls;
             sdr_frequency := sdr_frequency ls |}
          st cs
      else if Ascii.eqb opt "p"%char then
        parse_options env rest
          {| sdr_dev_index := sdr_dev_index ls;
             sdr_dev_given := sdr_dev_given ls;
             sdr_gain := sdr_gain ls;
             sdr_ppm_error := atoi env optarg;
             sdr_frequency := sdr_frequency ls |}
          st cs
      else if Ascii.eqb opt "c"%char then
        parse_options env rest ls (set_audio_channel st (atoi env optarg)) cs
      else UsageExit st (cs ++ [Usage])
  end.

(** [main]: the calls made, the globals and the trace when the process
    ends, and the exit status; [None] when the callback leaves an array. *)
Definition main {A : arith} (env : environment A) (opts : list (ascii * string))
    : option (list call * state A * Z) :=
  let cs := [Sigaction SIGINT; Sigaction SIGTERM; Sigaction SIGQUIT; Sigaction SIGPIPE] in
  match parse_options env opts initial_locals (initial_state A 0) cs with
  | UsageExit st cs => Some (cs, st, 1)
  | Parsed ls st cs =>
      let cs := cs ++ [SndPcmOpen AUDIO_DEVICE] in
      if snd_pcm_open env <? 0
      then Some (cs ++ [ErrOpenAudio (snd_pcm_open env)], st, EXIT_FAILURE)
      else
        let cs := cs ++ [SndPcmSetParams AUDIO_CHANNELS AUDIO_SAMPLE_RATE 1 500000] in
        if snd_pcm_set_params env <? 0
        then Some (cs ++ [ErrAudioParams (snd_pcm_set_params env)], st, EXIT_FAILURE)
        else
          let index := if sdr_dev_given ls =? 0
                       then verbose_device_search env "0"%string
                       else sdr_dev_index ls in
          let cs := if sdr_dev_given ls =? 0
                    then cs ++ [VerboseDeviceSearch "0"%string]
                    else cs in
          if index <? 0 then Some (cs, st, 1)
          else
            let cs := cs ++ [RtlsdrOpen index] in
            if rtlsdr_open env index <? 0
            then Some (cs ++ [ErrOpenSdr index], st, 1)
            else
              let cs := cs ++ [VerboseSetSampleRate SDR_SAMPLE_RATE;
                               VerboseSetFrequency (sdr_frequency ls)] in
              let cs := if sdr_gain ls =? 0
                        then cs ++ [VerboseAutoGain]
                        else cs ++ [NearestGain (sdr_gain ls);
                                    VerboseGainSet (nearest_gain env (sdr_gain ls))] in
              let cs := cs ++ [VerbosePpmSet (sdr_ppm_error ls); VerboseResetBuffer;
                               ReadingSamples; RtlsdrReadAsync 0 SDR_BUFFER_LENGTH] in
              match run A (deliveries env) st with
              | None => None
              | Some st' =>
                  let (st'', status) := main_exit A (rtlsdr_read_async env) st' in
                  Some (cs, st'', status)
              end
  end.

(** The arguments given with option [c], in order. *)
Fixpoint arguments (c : ascii) (opts : list (ascii * string)) : list string :=
  match opts with
  | [] => []
  | (opt, optarg) :: rest =>
      if Ascii.eqb opt c then optarg :: arguments c rest else arguments c rest
  end.

(** The argument of the last occurrence of option [c]. *)
Definition last_argument (c : ascii) (opts : list (ascii * string)) : option string :=
  fold_left (fun acc o => if Ascii.eqb (fst o) c then Some (snd o) else acc) opts None.

(** The locals and the globals after the option loop, option by option:
    the last occurrence decides, and an option that does not occur leaves
    the initial value. *)
Definition chosen {T : Type} (c : ascii) (opts : list (ascii * string))
    (read : string -> T) (default : T) : T :=
  match last_argument c opts with
  | Some optarg => read optarg
  | None => default
  end.

Definition parsed_locals {A : arith} (env : environment A) (opts : list (ascii * string))
    (ls : locals) : locals :=
  {| sdr_dev_index := chosen "d"%char opts (verbose_device_search env) (sdr_dev_index ls);
     sdr_dev_given := chosen "d"%char opts (fun _ => 1) (sdr_dev_given ls);
     sdr_gain := chosen "g"%char opts
                   (fun s => d_to_int A (atof env s * d_of_int A 10)%dbl) (sdr_gain ls);
     sdr_ppm_error := chosen "p"%char opts (atoi env) (sdr_ppm_error ls);
     sdr_frequency := chosen "f"%char opts (atofs_uint32 env) (sdr_frequency ls) |}.

Definition parsed_state {A : arith} (env : environment A) (opts : list (ascii * string))
    (st : state A) : state A :=
  set_audio_channel st (chosen "c"%char opts (atoi env) (audio_channel st)).

Definition signal_setup : list call :=
  [Sigaction SIGINT; Sigaction SIGTERM; Sigaction SIGQUIT; Sigaction SIGPIPE].

(** The option characters of the [switch]. *)
Definition known (opt : ascii) : bool :=
  Ascii.eqb opt "d"%char || Ascii.eqb opt "f"%char || Ascii.eqb opt "g"%char ||
  Ascii.eqb opt "p"%char || Ascii.eqb opt "c"%char.

Definition is_read_async (c : call) : bool :=
  match c with
  | RtlsdrReadAsync _ _ => true
  | _ => false
  end.

Definition touches_radio (c : call) : bool :=
  match c with
  | RtlsdrOpen _ | VerboseSetSampleRate _ | VerboseSetFrequency _ | VerboseAutoGain
  | NearestGain _ | VerboseGainSet _ | VerbosePpmSet _ | VerboseResetBuffer
  | RtlsdrReadAsync _ _ => true
  | _ => false
  end.

Definition touches_sink (c : call) : bool :=
  match c with
  | SndPcmOpen _ | SndPcmSetParams _ _ _ _ => true
  | _ => false
  end.


(** The device index [main] opens: what the search answered for the last
    [-d], or for "0" when there is no [-d]. *)
Definition device_index {A : arith} (env : environment A) (opts : list (ascii * string))
    : Z :=
  chosen "d"%char opts (verbose_device_search env) (verbose_device_search env "0"%string).

(** The calls up to and including the two that prepare the sink. *)
Definition sink_setup (opts : list (ascii * string)) : list call :=
  signal_setup ++ map VerboseDeviceSearch (arguments "d"%char opts)
  ++ [SndPcmOpen AUDIO_DEVICE; SndPcmSetParams AUDIO_CHANNELS AUDIO_SAMPLE_RATE 1 500000].

(** The search for device "0" that is made when no [-d] was given. *)
Definition default_search (opts : list (ascii * string)) : list call :=
  match last_argument "d"%char opts with
  | Some _ => []
  | None => [VerboseDeviceSearch "0"%string]
  end.

(** The calls that configure the radio, from the options. *)
Definition radio_setup {A : arith} (env : environment A) (opts : list (ascii * string))
    : list call :=
  let gain := chosen "g"%char opts
                (fun s => d_to_int A (atof env s * d_of_int A 10)%dbl) 0 in
  [RtlsdrOpen (device_index env opts);
   VerboseSetSampleRate SDR_SAMPLE_RATE;
   VerboseSetFrequency (chosen "f"%char opts (atofs_uint32 env) 148039000)]
  ++ (if gain =? 0 then [VerboseAutoGain]
      else [NearestGain gain; VerboseGainSet (nearest_gain env gain)])
  ++ [VerbosePpmSet (chosen "p"%char opts (atoi env) 0);
      VerboseResetBuffer; ReadingSamples; RtlsdrReadAsync 0 SDR_BUFFER_LENGTH].

(** An environment for examples: every call succeeds, [-c] arguments read
    as 3, one full buffer is delivered and then SIGINT is caught. *)
Definition example_environment : environment ieee :=
  {| atoi := fun _ => 3;
     atof := fun _ => (0%float : dbl ieee);
     atofs_uint32 := fun _ => 100000000;
     verbose_device_search := fun _ => 0;
     snd_pcm_open := 0;
     snd_pcm_set_params := 0;
     rtlsdr_open := fun _ => 0;
     nearest_gain := fun g => g;
     deliveries := [Deliver (constant_buffer "200"%byte) SDR_BUFFER_LENGTH; Caught SIGINT];
     rtlsdr_read_async := 0 |}.



(** ** Arrays: reads and writes *)

Section Arrays.

Context {T : Type}.

Lemma rd_in_range (l : list T) (i : Z) :
  0 <= i < Z.of_nat (List.length l) -> exists v, rd l i = Some v.
Proof.
  intros Hi. unfold rd.
  destruct (Z.ltb_spec i 0) as [Hneg | _]; [lia |].
  destruct (nth_error l (Z.to_nat i)) as [v |] eqn:E; [now exists v |].
  apply nth_error_None in E. lia.
Qed.

Lemma rd_Some_range (l : list T) (i : Z) (v : T) :
  rd l i = Some v -> 0 <= i < Z.of_nat (List.length l).
Proof.
  unfold rd. destruct (Z.ltb_spec i 0) as [Hneg | Hpos]; [discriminate |].
  intros E. assert (Hlt : (Z.to_nat i < List.length l)%nat).
  { apply nth_error_Some. congruence. }
  lia.
Qed.

Lemma rd_nth (l : list T) (i : Z) (v d : T) :
  rd l i = Some v -> nth (Z.to_nat i) l d = v.
Proof.
  unfold rd. destruct (i <? 0); [discriminate |].
  intros E. now apply nth_error_nth.
Qed.

Lemma rd_firstn (l : list T) (n : nat) (i : Z) :
  i < Z.of_nat n -> rd (firstn n l) i = rd l i.
Proof.
  intros Hi. unfold rd. destruct (Z.ltb_spec i 0) as [| Hpos]; [reflexivity |].
  rewrite nth_error_firstn.
  destruct (Nat.ltb_spec (Z.to_nat i) n); [reflexivity | lia].
Qed.

Lemma set_nth_length (l : list T) (n : nat) (v : T) :
  List.length (set_nth l n v) = List.length l.
Proof.
  revert n. induction l as [| h t IH]; intros [| n]; simpl; auto.
Qed.

Lemma nth_error_set_nth_same (l : list T) (n : nat) (v : T) :
  (n < List.length l)%nat -> nth_error (set_nth l n v) n = Some v.
Proof.
  revert n. induction l as [| h t IH]; intros [| n] Hn; simpl in *;
    try lia; auto. apply IH. lia.
Qed.

Lemma nth_error_set_nth_other (l : list T) (n m : nat) (v : T) :
  n <> m -> nth_error (set_nth l n v) m = nth_error l m.
Proof.
  revert n m. induction l as [| h t IH]; intros [| n] [| m] Hnm; simpl;
    auto; try congruence.
Qed.

Lemma wr_in_range (l : list T) (i : Z) (v : T) :
  0 <= i < Z.of_nat (List.length l) -> exists l', wr l i v = Some l'.
Proof.
  intros Hi. unfold wr.
  destruct (Z.leb_spec 0 i); [| lia].
  destruct (Z.ltb_spec i (Z.of_nat (List.length l))); [| lia].
  simpl. eauto.
Qed.

Lemma wr_Some (l l' : list T) (i : Z) (v : T) :
  wr l i v = Some l' ->
  0 <= i < Z.of_nat (List.length l) /\ l' = set_nth l (Z.to_nat i) v.
Proof.
  unfold wr.
  destruct (Z.leb_spec 0 i); simpl; [| discriminate].
  destruct (Z.ltb_spec i (Z.of_nat (List.length l))); [| discriminate].
  intros E. injection E as <-. auto.
Qed.

Lemma wr_length (l l' : list T) (i : Z) (v : T) :
  wr l i v = Some l' -> List.length l' = List.length l.
Proof.
  intros E. apply wr_Some in E as [_ ->]. apply set_nth_length.
Qed.

Lemma rd_wr_same (l l' : list T) (i : Z) (v : T) :
  wr l i v = Some l' -> rd l' i = Some v.
Proof.
  intros E. apply wr_Some in E as [Hi ->]. unfold rd.
  destruct (Z.ltb_spec i 0); [lia |].
  apply nth_error_set_nth_same. lia.
Qed.

Lemma rd_wr_other (l l' : list T) (i i' : Z) (v : T) :
  wr l i v = Some l' -> i' <> i -> rd l' i' = rd l i'.
Proof.
  intros E Hne. apply wr_Some in E as [Hi ->]. unfold rd.
  destruct (Z.ltb_spec i' 0); [reflexivity |].
  apply nth_error_set_nth_other. lia.
Qed.

Lemma rd_ext (l l' : list T) :
  (forall i, rd l i = rd l' i) -> l = l'.
Proof.
  intros H. apply nth_error_ext. intros n.
  specialize (H (Z.of_nat n)). unfold rd in H.
  destruct (Z.ltb_spec (Z.of_nat n) 0); [lia |].
  now rewrite Nat2Z.id in H.
Qed.

End Arrays.

(** ** The loops *)

Section Loops.

Variable A : arith.

Lemma land_uchar (b : byte) : Z.land (uchar b) 255 = uchar b.
Proof. destruct b; reflexivity. Qed.

Lemma uchar_range (b : byte) : 0 <= uchar b <= 255.
Proof. destruct b; cbv; split; discriminate. Qed.

Lemma sample_amplitude (b : byte) : sample A b = amplitude A (uchar b).
Proof. unfold sample, amplitude. now rewrite land_uchar. Qed.

Lemma zrange_length (from : Z) (n : nat) : List.length (zrange from n) = n.
Proof. revert from. induction n; intros; simpl; auto. Qed.

Lemma zrange_In (from : Z) (n : nat) (x : Z) :
  In x (zrange from n) <-> from <= x < from + Z.of_nat n.
Proof.
  revert from. induction n as [| n IH]; intros from; simpl.
  - lia.
  - rewrite IH. lia.
Qed.

Lemma iq_index_bounds (j k : Z) :
  0 <= j < AUDIO_BUFFER_LENGTH -> 0 <= k < SDR_SAMPLE_RATIO ->
  0 <= iq_index j k /\ iq_index j k + 1 < SDR_BUFFER_LENGTH.
Proof.
  unfold iq_index, SDR_BUFFER_LENGTH, AUDIO_BUFFER_LENGTH, SDR_SAMPLE_RATIO. lia.
Qed.

(** The inner loop adds up the amplitudes of the bytes it indexes, in the
    order of [k]. *)
Lemma sum_loop_spec (iqBuffer : list byte) (j : Z) (n : nat) :
  forall (k : Z) (sumI sumQ : dbl A),
    0 <= iq_index j k ->
    iq_index j (k + Z.of_nat n) <= Z.of_nat (List.length iqBuffer) ->
    sum_loop A iqBuffer j n k sumI sumQ =
    Some (fold_left (d_add A)
            (map (fun k => amplitude A (raw iqBuffer (iq_index j k))) (zrange k n)) sumI,
          fold_left (d_add A)
            (map (fun k => amplitude A (raw iqBuffer (iq_index j k + 1))) (zrange k n)) sumQ).
Proof.
  induction n as [| n IH]; intros k sumI sumQ Hlo Hhi; [reflexivity |].
  unfold iq_index in Hlo, Hhi.
  cbn [sum_loop zrange map fold_left].
  destruct (rd_in_range iqBuffer (iq_index j k)) as [bi Ebi];
    [unfold iq_index; lia |].
  destruct (rd_in_range iqBuffer (iq_index j k + 1)) as [bq Ebq];
    [unfold iq_index; lia |].
  rewrite Ebi, Ebq, !sample_amplitude.
  rewrite IH by (unfold iq_index; lia).
  unfold raw.
  now rewrite (rd_nth _ _ _ "000"%byte Ebi), (rd_nth _ _ _ "000"%byte Ebq).
Qed.

Lemma decimate_spec (iqBuffer : list byte) (j : Z) :
  0 <= j ->
  (j + 1) * (SDR_SAMPLE_RATIO * 2) <= Z.of_nat (List.length iqBuffer) ->
  decimate A iqBuffer j =
  Some (decimated_I_spec A iqBuffer SDR_SAMPLE_RATIO j,
        decimated_Q_spec A iqBuffer SDR_SAMPLE_RATIO j).
Proof.
  intros Hj Hlen. unfold decimate.
  rewrite sum_loop_spec.
  - unfold decimated_I_spec, decimated_Q_spec, mean_of, sum_of, iq_index.
    now rewrite !length_map, !zrange_length, Z2Nat.id by (cbv; discriminate).
  - unfold iq_index, SDR_SAMPLE_RATIO. lia.
  - unfold iq_index, SDR_SAMPLE_RATIO in *. simpl Z.of_nat. lia.
Qed.

Lemma decimate_firstn (iqBuffer : list byte) (n : nat) (j : Z) :
  0 <= j -> (j + 1) * (SDR_SAMPLE_RATIO * 2) <= Z.of_nat n ->
  Z.of_nat n <= Z.of_nat (List.length iqBuffer) ->
  decimate A (firstn n iqBuffer) j = decimate A iqBuffer j.
Proof.
  intros Hj Hn Hlen. unfold decimate.
  assert (E : forall m k sumI sumQ,
             0 <= k -> k + Z.of_nat m <= SDR_SAMPLE_RATIO ->
             sum_loop A (firstn n iqBuffer) j m k sumI sumQ =
             sum_loop A iqBuffer j m k sumI sumQ).
  { induction m as [| m IH]; intros k sumI sumQ Hk Hm; [reflexivity |].
    cbn [sum_loop].
    rewrite !rd_firstn by (unfold iq_index, SDR_SAMPLE_RATIO in *; lia).
    destruct (rd iqBuffer (iq_index j k)); [| reflexivity].
    destruct (rd iqBuffer (iq_index j k + 1)); [| reflexivity].
    apply IH; lia. }
  rewrite E; [reflexivity | lia | cbv; discriminate].
Qed.

Lemma store_spec (ch sel : Z) (buf : list (flt A)) (idx : Z) (v : dbl A) :
  0 <= idx < Z.of_nat (List.length buf) ->
  exists buf',
    store A ch sel buf idx v = Some buf' /\
    List.length buf' = List.length buf /\
    forall i, rd buf' i =
              if (i =? idx) && ((ch =? 0) || (ch =? sel))
              then Some (d_to_flt A v) else rd buf i.
Proof.
  intros Hidx. unfold store.
  destruct ((ch =? 0) || (ch =? sel)).
  - destruct (wr_in_range buf idx (d_to_flt A v) Hidx) as [buf' E].
    exists buf'. split; [exact E |]. split; [exact (wr_length _ _ _ _ E) |].
    intros i. destruct (Z.eqb_spec i idx) as [-> | Hne]; simpl.
    + exact (rd_wr_same _ _ _ _ E).
    + exact (rd_wr_other _ _ _ _ _ E Hne).
  - exists buf. split; [reflexivity |]. split; [reflexivity |].
    intros i. now rewrite andb_false_r.
Qed.

Lemma selects_even (ch j : Z) : selects ch (j * 2) = (ch =? 0) || (ch =? 1).
Proof.
  unfold selects. replace (Z.even (j * 2)) with true; [reflexivity |].
  symmetry. rewrite Z.even_spec. exists j. lia.
Qed.

Lemma selects_odd (ch j : Z) : selects ch (j * 2 + 1) = (ch =? 0) || (ch =? 2).
Proof.
  unfold selects. replace (Z.even (j * 2 + 1)) with false; [reflexivity |].
  symmetry. rewrite <- Z.negb_odd, negb_false_iff, Z.odd_spec. exists j. lia.
Qed.

Lemma peak_from_cons (iqBuffer : list byte) (j : Z) (js : list Z) (maxA : dbl A) :
  peak_from A iqBuffer (j :: js) maxA =
  peak_from A iqBuffer js (bump A maxA (a_at A iqBuffer j)).
Proof. reflexivity. Qed.

(** The loop over [j], run for [n] frames from frame [j]: it returns, the
    buffer keeps its length, every selected slot of those frames holds the
    [q] of its frame, every other slot is as before, and [maxA] has gone
    through [bump] once per frame. *)
Lemma frame_loop_spec (iqBuffer : list byte) (ch : Z) (n : nat) :
  forall (j : Z) (maxA : dbl A) (buf : list (flt A)),
    0 <= j ->
    (j + Z.of_nat n) * (SDR_SAMPLE_RATIO * 2) <= Z.of_nat (List.length iqBuffer) ->
    (j + Z.of_nat n) * 2 <= Z.of_nat (List.length buf) ->
    exists buf',
      frame_loop A iqBuffer ch n j maxA buf =
        Some (peak_from A iqBuffer (zrange j n) maxA, buf') /\
      List.length buf' = List.length buf /\
      forall idx, rd buf' idx =
                  if (j * 2 <=? idx) && (idx <? (j + Z.of_nat n) * 2) && selects ch idx
                  then Some (d_to_flt A (q_at A iqBuffer (idx / 2)))
                  else rd buf idx.
Proof.
  induction n as [| n IH]; intros j maxA buf Hj Hiq Hbuf.
  - exists buf. split; [reflexivity |]. split; [reflexivity |].
    intros idx.
    destruct (Z.leb_spec (j * 2) idx); destruct (Z.ltb_spec idx ((j + Z.of_nat 0) * 2));
      simpl; try reflexivity; lia.
  - cbn [frame_loop zrange].
    assert (Ed : decimate A iqBuffer j =
                 Some (decimated_I_spec A iqBuffer SDR_SAMPLE_RATIO j,
                       decimated_Q_spec A iqBuffer SDR_SAMPLE_RATIO j)).
    { apply decimate_spec; [exact Hj | unfold SDR_SAMPLE_RATIO in *; lia]. }
    set (i := decimated_I_spec A iqBuffer SDR_SAMPLE_RATIO j) in *.
    set (q := decimated_Q_spec A iqBuffer SDR_SAMPLE_RATIO j) in *.
    assert (Eq : q_at A iqBuffer j = q) by (unfold q_at; now rewrite Ed).
    assert (Ea : a_at A iqBuffer j = magnitude A i q) by (unfold a_at; now rewrite Ed).
    rewrite peak_from_cons, Ea, Ed.
    destruct (store_spec ch 1 buf (j * 2) q) as (buf1 & E1 & L1 & R1); [lia |].
    destruct (store_spec ch 2 buf1 (j * 2 + 1) q) as (buf2 & E2 & L2 & R2); [lia |].
    cbv zeta. rewrite E1, E2. fold (bump A maxA (magnitude A i q)).
    destruct (IH (j + 1) (bump A maxA (magnitude A i q)) buf2)
      as (buf' & E & L & R); [lia | lia | lia |].
    exists buf'. split; [exact E |]. split; [congruence |].
    intros idx. rewrite R, R2, R1.
    rewrite <- (selects_even ch j), <- (selects_odd ch j).
    replace ((j + 1 + Z.of_nat n) * 2) with ((j + Z.of_nat (S n)) * 2) by lia.
    destruct (Z.eqb_spec idx (j * 2 + 1)) as [-> | Hne1].
    + replace ((j * 2 + 1) / 2) with j
        by (apply Z.div_unique with (r := 1); lia).
      rewrite Eq.
      destruct (Z.leb_spec ((j + 1) * 2) (j * 2 + 1)); [lia |].
      destruct (Z.leb_spec (j * 2) (j * 2 + 1)); [| lia].
      destruct (Z.ltb_spec (j * 2 + 1) ((j + Z.of_nat (S n)) * 2)); [| lia].
      destruct (Z.eqb_spec (j * 2 + 1) (j * 2)); [lia |].
      simpl. destruct (selects ch (j * 2 + 1)); reflexivity.
    + destruct (Z.eqb_spec idx (j * 2)) as [-> | Hne0].
      * replace (j * 2 / 2) with j by (apply Z.div_unique with (r := 0); lia).
        rewrite Eq.
        destruct (Z.leb_spec ((j + 1) * 2) (j * 2)); [lia |].
        destruct (Z.leb_spec (j * 2) (j * 2)); [| lia].
        destruct (Z.ltb_spec (j * 2) ((j + Z.of_nat (S n)) * 2)); [| lia].
        simpl. destruct (selects ch (j * 2)); reflexivity.
      * simpl.
        destruct (Z.leb_spec ((j + 1) * 2) idx);
          destruct (Z.leb_spec (j * 2) idx);
          destruct (Z.ltb_spec idx ((j + Z.of_nat (S n)) * 2));
          simpl; try reflexivity; lia.
Qed.

End Loops.

(** ** One invocation of the callback *)

Section Callback.

Variable A : arith.

Lemma peak_unfold (iqBuffer : list byte) :
  peak A iqBuffer =
  peak_from A iqBuffer (zrange 0 (Z.to_nat AUDIO_BUFFER_LENGTH)) (d_of_int A 0).
Proof. unfold peak. reflexivity. Qed.

Lemma sdr_callback_cancelled (iqBuffer : list byte) (len : Z) (st : state A) :
  do_exit st <> 0 -> sdr_callback A iqBuffer len st = Some st.
Proof.
  intros Hx. unfold sdr_callback.
  destruct (Z.eqb_spec (do_exit st) 0); [contradiction | reflexivity].
Qed.

(** With the flag clear, a raw buffer of at least [SDR_BUFFER_LENGTH] bytes
    and the output array at its declared size, the callback returns; the
    new buffer differs from the old one in the selected slots only, which
    hold the [q] of their frame, and the meter and the sink are written
    once each, in that order. *)
Lemma sdr_callback_spec (iqBuffer : list byte) (len : Z) (st : state A) :
  do_exit st = 0 ->
  SDR_BUFFER_LENGTH <= Z.of_nat (List.length iqBuffer) ->
  sized st ->
  exists buf',
    sdr_callback A iqBuffer len st =
      Some {| g_audio_buffer := buf';
              audio_channel := audio_channel st;
              do_exit := do_exit st;
              trace := trace st ++ emitted A iqBuffer buf' |} /\
    List.length buf' = List.length (g_audio_buffer st) /\
    forall idx, rd buf' idx =
                if (0 <=? idx) && (idx <? AUDIO_BUFFER_LENGTH * AUDIO_CHANNELS)
                   && selects (audio_channel st) idx
                then Some (d_to_flt A (q_at A iqBuffer (idx / 2)))
                else rd (g_audio_buffer st) idx.
Proof.
  intros Hx Hiq Hbuf. unfold sdr_callback, sized in *. rewrite Hx.
  destruct (frame_loop_spec A iqBuffer (audio_channel st)
              (Z.to_nat AUDIO_BUFFER_LENGTH) 0 (d_of_int A 0) (g_audio_buffer st))
    as (buf' & E & L & R).
  - lia.
  - rewrite Z2Nat.id by (cbv; discriminate).
    unfold SDR_BUFFER_LENGTH in Hiq. lia.
  - rewrite Z2Nat.id by (cbv; discriminate).
    unfold AUDIO_CHANNELS in Hbuf. lia.
  - exists buf'. cbn [Z.eqb negb]. rewrite E.
  unfold emitted. rewrite peak_unfold. split; [reflexivity |].
    split; [exact L |]. intros idx. rewrite R.
    rewrite Z2Nat.id by (cbv; discriminate). reflexivity.
Qed.

Lemma frame_loop_firstn (iqBuffer : list byte) (ch : Z) (m : nat) (n : nat) :
  forall (j : Z) (maxA : dbl A) (buf : list (flt A)),
    0 <= j ->
    (j + Z.of_nat n) * (SDR_SAMPLE_RATIO * 2) <= Z.of_nat m ->
    Z.of_nat m <= Z.of_nat (List.length iqBuffer) ->
    frame_loop A (firstn m iqBuffer) ch n j maxA buf =
    frame_loop A iqBuffer ch n j maxA buf.
Proof.
  induction n as [| n IH]; intros j maxA buf Hj Hm Hlen; [reflexivity |].
  cbn [frame_loop].
  rewrite decimate_firstn by (unfold SDR_SAMPLE_RATIO in *; lia).
  destruct (decimate A iqBuffer j) as [[i q] |]; [| reflexivity].
  cbv zeta.
  destruct (store A ch 1 buf (j * 2) q) as [buf1 |]; [| reflexivity].
  destruct (store A ch 2 buf1 (j * 2 + 1) q) as [buf2 |]; [| reflexivity].
  apply IH; unfold SDR_SAMPLE_RATIO in *; lia.
Qed.

(** The callback reads no byte at or after offset [SDR_BUFFER_LENGTH]. *)
Lemma sdr_callback_firstn (iqBuffer : list byte) (len : Z) (st : state A) :
  SDR_BUFFER_LENGTH <= Z.of_nat (List.length iqBuffer) ->
  sdr_callback A (firstn (Z.to_nat SDR_BUFFER_LENGTH) iqBuffer) len st =
  sdr_callback A iqBuffer len st.
Proof.
  intros Hiq. unfold sdr_callback.
  destruct (negb (do_exit st =? 0)); [reflexivity |].
  rewrite frame_loop_firstn; [reflexivity | lia | | ].
  - rewrite !Z2Nat.id by (cbv; discriminate). unfold SDR_BUFFER_LENGTH. lia.
  - rewrite Z2Nat.id by (cbv; discriminate). exact Hiq.
Qed.

Lemma decimate_in_frame (iqBuffer : list byte) (j : Z) :
  SDR_BUFFER_LENGTH <= Z.of_nat (List.length iqBuffer) ->
  0 <= j < AUDIO_BUFFER_LENGTH ->
  decimate A iqBuffer j =
  Some (decimated_I_spec A iqBuffer SDR_SAMPLE_RATIO j,
        decimated_Q_spec A iqBuffer SDR_SAMPLE_RATIO j).
Proof.
  intros Hlen Hj. apply decimate_spec; [lia |].
  unfold SDR_BUFFER_LENGTH, AUDIO_BUFFER_LENGTH, SDR_SAMPLE_RATIO in *. lia.
Qed.

(** The same, frame by frame. *)
Lemma sdr_callback_frames (iqBuffer : list byte) (len : Z) (st : state A) :
  do_exit st = 0 ->
  SDR_BUFFER_LENGTH <= Z.of_nat (List.length iqBuffer) ->
  sized st ->
  exists st',
    sdr_callback A iqBuffer len st = Some st' /\
    audio_channel st' = audio_channel st /\
    do_exit st' = 0 /\
    sized st' /\
    trace st' = trace st ++ emitted A iqBuffer (g_audio_buffer st') /\
    forall j, 0 <= j < AUDIO_BUFFER_LENGTH ->
      rd (g_audio_buffer st') (j * 2) =
        (if (audio_channel st =? 0) || (audio_channel st =? 1)
         then Some (d_to_flt A (q_at A iqBuffer j))
         else rd (g_audio_buffer st) (j * 2)) /\
      rd (g_audio_buffer st') (j * 2 + 1) =
        (if (audio_channel st =? 0) || (audio_channel st =? 2)
         then Some (d_to_flt A (q_at A iqBuffer j))
         else rd (g_audio_buffer st) (j * 2 + 1)).
Proof.
  intros Hx Hiq Hbuf.
  destruct (sdr_callback_spec iqBuffer len st Hx Hiq Hbuf) as (buf' & E & L & R).
  eexists. split; [exact E |]. cbn [g_audio_buffer audio_channel do_exit trace].
  split; [reflexivity |]. split; [exact Hx |].
  split; [unfold sized in *; cbn [g_audio_buffer]; congruence |].
  split; [reflexivity |].
  intros j Hj. rewrite !R, selects_even, selects_odd.
  replace (j * 2 / 2) with j by (apply Z.div_unique with (r := 0); lia).
  replace ((j * 2 + 1) / 2) with j by (apply Z.div_unique with (r := 1); lia).
  unfold AUDIO_BUFFER_LENGTH, AUDIO_CHANNELS in *.
  destruct (Z.leb_spec 0 (j * 2)); [| lia].
  destruct (Z.ltb_spec (j * 2) (16384 * 2)); [| lia].
  destruct (Z.leb_spec 0 (j * 2 + 1)); [| lia].
  destruct (Z.ltb_spec (j * 2 + 1) (16384 * 2)); [| lia].
  split; reflexivity.
Qed.

(** Run again on the state it produced, with the same raw buffer, the
    callback leaves the output buffer as it is. *)
Lemma sdr_callback_again (iqBuffer : list byte) (len len' : Z) (st st1 : state A) :
  do_exit st = 0 ->
  SDR_BUFFER_LENGTH <= Z.of_nat (List.length iqBuffer) ->
  sized st ->
  sdr_callback A iqBuffer len st = Some st1 ->
  exists st2,
    sdr_callback A iqBuffer len' st1 = Some st2 /\
    g_audio_buffer st2 = g_audio_buffer st1 /\
    trace st2 = trace st1 ++ emitted A iqBuffer (g_audio_buffer st1).
Proof.
  intros Hx Hiq Hbuf E1.
  destruct (sdr_callback_spec iqBuffer len st Hx Hiq Hbuf) as (buf1 & E1' & L1 & R1).
  rewrite E1 in E1'. injection E1' as ->.
  destruct (sdr_callback_spec iqBuffer len'
              {| g_audio_buffer := buf1; audio_channel := audio_channel st;
                 do_exit := do_exit st;
                 trace := trace st ++ emitted A iqBuffer buf1 |})
    as (buf2 & E2 & L2 & R2); [exact Hx | exact Hiq | |].
  { unfold sized in *. cbn [g_audio_buffer]. congruence. }
  cbn [g_audio_buffer audio_channel do_exit trace] in *.
  assert (Eb : buf2 = buf1).
  { apply rd_ext. intros idx. rewrite R2, R1.
    destruct ((0 <=? idx) && (idx <? AUDIO_BUFFER_LENGTH * AUDIO_CHANNELS)
              && selects (audio_channel st) idx); reflexivity. }
  subst buf2. eexists. split; [exact E2 |]. split; reflexivity.
Qed.

Lemma initial_state_sized (ch : Z) : sized (initial_state A ch).
Proof.
  unfold sized, initial_state. cbn [g_audio_buffer].
  rewrite repeat_length. apply Z2Nat.id. cbv; discriminate.
Qed.

Lemma constant_buffer_length (b : byte) :
  Z.of_nat (List.length (constant_buffer b)) = SDR_BUFFER_LENGTH.
Proof.
  unfold constant_buffer. rewrite repeat_length. apply Z2Nat.id. cbv; discriminate.
Qed.

End Callback.

(** ** The decimated pair (C2) *)

(** C2. For a raw buffer of the expected length and an output frame [j] in
    [[0, AUDIO_BUFFER_LENGTH)], the loop over [k] and the two divisions
    compute the pair the specification describes: [i] is the arithmetic mean
    over [k] in [[0, SDR_SAMPLE_RATIO)] of [(raw[j*ratio*2 + k*2] - 127.5) /
    127.5], and [q] the same mean over the bytes one further.  The terms are
    added in the order of [k], starting from 0, in the arithmetic of the
    instance. *)
Theorem C2_decimated_pair_is_mean (A : arith) (iqBuffer : list byte) (j : Z) :
  Z.of_nat (List.length iqBuffer) = SDR_BUFFER_LENGTH ->
  0 <= j < AUDIO_BUFFER_LENGTH ->
  decimate A iqBuffer j =
  Some (decimated_I_spec A iqBuffer SDR_SAMPLE_RATIO j,
        decimated_Q_spec A iqBuffer SDR_SAMPLE_RATIO j).
Proof.
  intros Hlen Hj. apply decimate_in_frame; [lia | exact Hj].
Qed.

Lemma C2_witness :
  Z.of_nat (List.length (constant_buffer "127"%byte)) = SDR_BUFFER_LENGTH /\
  0 <= 7 < AUDIO_BUFFER_LENGTH /\
  decimate ieee (constant_buffer "127"%byte) 7 =
  Some (decimated_I_spec ieee (constant_buffer "127"%byte) SDR_SAMPLE_RATIO 7,
        decimated_Q_spec ieee (constant_buffer "127"%byte) SDR_SAMPLE_RATIO 7).
Proof.
  assert (Hlen := constant_buffer_length "127"%byte).
  assert (Hj : 0 <= 7 < AUDIO_BUFFER_LENGTH) by (unfold AUDIO_BUFFER_LENGTH; lia).
  split; [exact Hlen |]. split; [exact Hj |].
  exact (C2_decimated_pair_is_mean ieee (constant_buffer "127"%byte) 7 Hlen Hj).
Defined.

(** ** Cancellation (C5) *)

(** C5. An invocation that starts with the cancellation flag set returns
    the state it was given: the output buffer, the routing mode, the flag and
    the trace of meter and sink writes are all unchanged.  [sighandler] sets
    the flag, so this holds for every invocation after it. *)
Theorem C5_cancelled_call_is_noop (A : arith) (iqBuffer : list byte) (len : Z)
    (st : state A) :
  do_exit st <> 0 ->
  sdr_callback A iqBuffer len st = Some st /\
  forall signum,
    sdr_callback A iqBuffer len (sighandler A signum st) = Some (sighandler A signum st).
Proof.
  intros Hx. split.
  - now apply sdr_callback_cancelled.
  - intros signum. apply sdr_callback_cancelled. cbn. discriminate.
Qed.

Lemma C5_witness :
  do_exit (sighandler ieee 2 (initial_state ieee 0)) <> 0 /\
  sdr_callback ieee (constant_buffer "255"%byte) SDR_BUFFER_LENGTH
    (sighandler ieee 2 (initial_state ieee 0)) =
  Some (sighandler ieee 2 (initial_state ieee 0)).
Proof.
  assert (Hx : do_exit (sighandler ieee 2 (initial_state ieee 0)) <> 0)
    by (cbn; discriminate).
  split; [exact Hx |].
  exact (proj1 (C5_cancelled_call_is_noop ieee (constant_buffer "255"%byte)
                  SDR_BUFFER_LENGTH _ Hx)).
Defined.

(** ** Array bounds (C10) *)

(** C10. When the raw buffer holds at least [SDR_BUFFER_LENGTH] = 163840
    bytes and the output array has its declared 32768 elements, the callback
    returns a state (no access falls outside an array); the offsets it reads,
    [iq_index j k] and the next one, lie in [[0, 163840)], the bytes from
    163840 on do not matter, and the slots it stores to, [j * 2] and
    [j * 2 + 1], lie in [[0, 32768)]. *)
Theorem C10_accesses_in_bounds (A : arith) (iqBuffer : list byte) (len : Z)
    (st : state A) :
  SDR_BUFFER_LENGTH <= Z.of_nat (List.length iqBuffer) ->
  sized st ->
  (exists st', sdr_callback A iqBuffer len st = Some st') /\
  sdr_callback A (firstn (Z.to_nat SDR_BUFFER_LENGTH) iqBuffer) len st =
    sdr_callback A iqBuffer len st /\
  (forall j k, 0 <= j < AUDIO_BUFFER_LENGTH -> 0 <= k < SDR_SAMPLE_RATIO ->
     0 <= iq_index j k /\ iq_index j k + 1 < 163840 /\
     0 <= j * 2 /\ j * 2 + 1 < 32768).
Proof.
  intros Hiq Hbuf. split; [| split].
  - destruct (Z.eq_dec (do_exit st) 0) as [Hx | Hx].
    + destruct (sdr_callback_spec A iqBuffer len st Hx Hiq Hbuf) as (buf' & E & _).
      eauto.
    + exists st. now apply sdr_callback_cancelled.
  - apply sdr_callback_firstn. exact Hiq.
  - intros j k Hj Hk.
    destruct (iq_index_bounds j k Hj Hk) as [H0 H1].
    unfold SDR_BUFFER_LENGTH, AUDIO_BUFFER_LENGTH, SDR_SAMPLE_RATIO in *. lia.
Qed.

Lemma C10_witness :
  SDR_BUFFER_LENGTH <= Z.of_nat (List.length (constant_buffer "000"%byte)) /\
  sized (initial_state ieee 0) /\
  exists st',
    sdr_callback ieee (constant_buffer "000"%byte) SDR_BUFFER_LENGTH (initial_state ieee 0)
    = Some st'.
Proof.
  assert (Hiq : SDR_BUFFER_LENGTH <= Z.of_nat (List.length (constant_buffer "000"%byte)))
    by (rewrite constant_buffer_length; lia).
  split; [exact Hiq |]. split; [apply initial_state_sized |].
  exact (proj1 (C10_accesses_in_bounds ieee (constant_buffer "000"%byte)
                  SDR_BUFFER_LENGTH (initial_state ieee 0) Hiq
                  (initial_state_sized ieee 0))).
Defined.

(** ** What is stored (C1) *)

(** C1, at a concrete input.  Routing mode 0, a raw buffer of 163840 bytes
    [0x00]: frame 0 has [i = q = -1], so its envelope magnitude is
    [sqrt 2]; slot 0 of the output buffer holds [-1] after the call. *)
Lemma C1_counterexample :
  exists st',
    sdr_callback ieee (constant_buffer "000"%byte) SDR_BUFFER_LENGTH (initial_state ieee 0)
      = Some st' /\
    rd (g_audio_buffer st') 0 = Some (-1)%float /\
    PrimFloat.ltb 1 (d_to_flt ieee (a_at ieee (constant_buffer "000"%byte) 0)) = true /\
    rd (g_audio_buffer st') 0 <>
      Some (d_to_flt ieee (a_at ieee (constant_buffer "000"%byte) 0)).
Proof.
  destruct (sdr_callback_spec ieee (constant_buffer "000"%byte) SDR_BUFFER_LENGTH
              (initial_state ieee 0)) as (buf' & E & _ & R).
  - reflexivity.
  - rewrite constant_buffer_length. lia.
  - apply initial_state_sized.
  - eexists. split; [exact E |]. cbn [g_audio_buffer].
    assert (R0 : rd buf' 0 = Some (-1)%float).
    { rewrite R. change (audio_channel (initial_state ieee 0)) with 0.
      change (0 / 2) with 0.
      replace (q_at ieee (constant_buffer "000"%byte) 0) with (-1)%float
        by (vm_compute; reflexivity).
      reflexivity. }
    split; [exact R0 |]. split; [vm_compute; reflexivity |].
    rewrite R0. intros H.
    apply (f_equal (fun o => match o with
                             | Some x => PrimFloat.ltb x 0
                             | None => false
                             end)) in H.
    vm_compute in H. discriminate.
Qed.

(** C1, as the code has it.  With the flag clear, a raw buffer of the
    expected length and the output array at its declared size, the callback
    returns, and each slot of output frame [j] that the routing mode selects
    holds the decimated Q value [q] of that frame, converted to [float]: the
    second component of [decimate], not the magnitude [sqrt (i*i + q*q)]. *)
Theorem C1_stored_value_is_q (A : arith) (iqBuffer : list byte) (len : Z)
    (st : state A) (j : Z) :
  do_exit st = 0 ->
  Z.of_nat (List.length iqBuffer) = SDR_BUFFER_LENGTH ->
  sized st ->
  0 <= j < AUDIO_BUFFER_LENGTH ->
  exists st' i q,
    sdr_callback A iqBuffer len st = Some st' /\
    decimate A iqBuffer j = Some (i, q) /\
    (selects (audio_channel st) (j * 2) = true ->
     rd (g_audio_buffer st') (j * 2) = Some (d_to_flt A q)) /\
    (selects (audio_channel st) (j * 2 + 1) = true ->
     rd (g_audio_buffer st') (j * 2 + 1) = Some (d_to_flt A q)).
Proof.
  intros Hx Hiq Hbuf Hj.
  destruct (sdr_callback_spec A iqBuffer len st Hx) as (buf' & E & _ & R);
    [lia | exact Hbuf |].
  assert (Ed : decimate A iqBuffer j =
               Some (decimated_I_spec A iqBuffer SDR_SAMPLE_RATIO j,
                     decimated_Q_spec A iqBuffer SDR_SAMPLE_RATIO j))
    by (apply decimate_in_frame; [lia | exact Hj]).
  eexists. exists (decimated_I_spec A iqBuffer SDR_SAMPLE_RATIO j),
                  (decimated_Q_spec A iqBuffer SDR_SAMPLE_RATIO j).
  split; [exact E |]. split; [exact Ed |].
  assert (Eq : q_at A iqBuffer j = decimated_Q_spec A iqBuffer SDR_SAMPLE_RATIO j)
    by (unfold q_at; now rewrite Ed).
  cbn [g_audio_buffer]. unfold AUDIO_BUFFER_LENGTH, AUDIO_CHANNELS in *.
  split; intros Hsel; rewrite R, Hsel.
  - replace (j * 2 / 2) with j by (apply Z.div_unique with (r := 0); lia).
    rewrite Eq.
    destruct (Z.leb_spec 0 (j * 2)); [| lia].
    destruct (Z.ltb_spec (j * 2) (16384 * 2)); [reflexivity | lia].
  - replace ((j * 2 + 1) / 2) with j by (apply Z.div_unique with (r := 1); lia).
    rewrite Eq.
    destruct (Z.leb_spec 0 (j * 2 + 1)); [| lia].
    destruct (Z.ltb_spec (j * 2 + 1) (16384 * 2)); [reflexivity | lia].
Qed.

Lemma C1_witness :
  do_exit (initial_state ieee 1) = 0 /\
  Z.of_nat (List.length (constant_buffer "255"%byte)) = SDR_BUFFER_LENGTH /\
  sized (initial_state ieee 1) /\
  0 <= 5 < AUDIO_BUFFER_LENGTH /\
  exists st' i q,
    sdr_callback ieee (constant_buffer "255"%byte) SDR_BUFFER_LENGTH (initial_state ieee 1)
      = Some st' /\
    decimate ieee (constant_buffer "255"%byte) 5 = Some (i, q) /\
    (selects (audio_channel (initial_state ieee 1)) (5 * 2) = true ->
     rd (g_audio_buffer st') (5 * 2) = Some (d_to_flt ieee q)) /\
    (selects (audio_channel (initial_state ieee 1)) (5 * 2 + 1) = true ->
     rd (g_audio_buffer st') (5 * 2 + 1) = Some (d_to_flt ieee q)).
Proof.
  assert (Hj : 0 <= 5 < AUDIO_BUFFER_LENGTH) by (unfold AUDIO_BUFFER_LENGTH; lia).
  split; [reflexivity |]. split; [apply constant_buffer_length |].
  split; [apply initial_state_sized |]. split; [exact Hj |].
  exact (C1_stored_value_is_q ieee (constant_buffer "255"%byte) SDR_BUFFER_LENGTH
           (initial_state ieee 1) 5 eq_refl (constant_buffer_length "255"%byte)
           (initial_state_sized ieee 1) Hj).
Defined.

(** ** The length argument (C4) *)

(** C4, at a concrete input.  The callback is handed a full raw buffer of
    bytes [0x00] with the length argument 0, which differs from
    [SDR_BUFFER_LENGTH], while the flag is clear: slot 0 of the output buffer
    changes from 0 to -1, and the meter and the sink are written. *)
Lemma C4_counterexample :
  0 <> SDR_BUFFER_LENGTH /\
  exists st',
    sdr_callback ieee (constant_buffer "000"%byte) 0 (initial_state ieee 0) = Some st' /\
    rd (g_audio_buffer (initial_state ieee 0)) 0 = Some 0%float /\
    rd (g_audio_buffer st') 0 = Some (-1)%float /\
    trace (initial_state ieee 0) = [] /\
    exists width frames, trace st' = [EvMeter ieee width; EvWritei ieee frames 16384].
Proof.
  split; [discriminate |].
  destruct (sdr_callback_spec ieee (constant_buffer "000"%byte) 0
              (initial_state ieee 0)) as (buf' & E & _ & R).
  - reflexivity.
  - rewrite constant_buffer_length. lia.
  - apply initial_state_sized.
  - eexists. split; [exact E |]. cbn [g_audio_buffer trace].
    split; [vm_compute; reflexivity |].
    split.
    + rewrite R. change (audio_channel (initial_state ieee 0)) with 0.
      change (0 / 2) with 0.
      replace (q_at ieee (constant_buffer "000"%byte) 0) with (-1)%float
        by (vm_compute; reflexivity).
      reflexivity.
    + split; [reflexivity |].
      change (trace (initial_state ieee 0)) with (@nil (event ieee)).
      unfold emitted. cbn [app]. do 2 eexists. reflexivity.
Qed.

(** C4, as the code has it.  The callback does not look at its length
    argument: whatever [len] is, with the flag clear, a raw buffer holding
    [SDR_BUFFER_LENGTH] bytes and the output array at its declared size, it
    returns the state it returns for [len = SDR_BUFFER_LENGTH], in which the
    meter and the sink have been written once each. *)
Theorem C4_length_argument_unused (A : arith) (iqBuffer : list byte) (len : Z)
    (st : state A) :
  do_exit st = 0 ->
  SDR_BUFFER_LENGTH <= Z.of_nat (List.length iqBuffer) ->
  sized st ->
  exists st',
    sdr_callback A iqBuffer len st = Some st' /\
    sdr_callback A iqBuffer SDR_BUFFER_LENGTH st = Some st' /\
    trace st' = trace st ++ emitted A iqBuffer (g_audio_buffer st').
Proof.
  intros Hx Hiq Hbuf.
  destruct (sdr_callback_spec A iqBuffer len st Hx Hiq Hbuf) as (buf' & E & _).
  eexists. split; [exact E |]. split; [exact E |]. reflexivity.
Qed.

Lemma C4_witness :
  do_exit (initial_state ieee 0) = 0 /\
  SDR_BUFFER_LENGTH <= Z.of_nat (List.length (constant_buffer "128"%byte)) /\
  sized (initial_state ieee 0) /\
  exists st',
    sdr_callback ieee (constant_buffer "128"%byte) 17 (initial_state ieee 0) = Some st' /\
    sdr_callback ieee (constant_buffer "128"%byte) SDR_BUFFER_LENGTH (initial_state ieee 0)
      = Some st' /\
    trace st' = trace (initial_state ieee 0)
                ++ emitted ieee (constant_buffer "128"%byte) (g_audio_buffer st').
Proof.
  assert (Hiq : SDR_BUFFER_LENGTH <= Z.of_nat (List.length (constant_buffer "128"%byte)))
    by (rewrite constant_buffer_length; lia).
  split; [reflexivity |]. split; [exact Hiq |]. split; [apply initial_state_sized |].
  exact (C4_length_argument_unused ieee (constant_buffer "128"%byte) 17
           (initial_state ieee 0) eq_refl Hiq (initial_state_sized ieee 0)).
Defined.

(** ** Channel routing (C8) *)

(** C8. With the flag clear, a raw buffer of the expected length and the
    output array at its declared size, the callback returns and, for every
    output frame [j]: in mode 1 (left) slot [2j] holds the demodulated value
    of the frame and slot [2j+1] is what it was before the call; in mode 2
    (right) slot [2j+1] holds it and slot [2j] is what it was; in mode 0
    (both) the two slots hold the same value. *)
Theorem C8_channel_routing (A : arith) (iqBuffer : list byte) (len : Z)
    (st : state A) :
  do_exit st = 0 ->
  Z.of_nat (List.length iqBuffer) = SDR_BUFFER_LENGTH ->
  sized st ->
  exists st',
    sdr_callback A iqBuffer len st = Some st' /\
    forall j, 0 <= j < AUDIO_BUFFER_LENGTH ->
      let v := d_to_flt A (q_at A iqBuffer j) in
      (audio_channel st = 1 ->
         rd (g_audio_buffer st') (j * 2) = Some v /\
         rd (g_audio_buffer st') (j * 2 + 1) = rd (g_audio_buffer st) (j * 2 + 1)) /\
      (audio_channel st = 2 ->
         rd (g_audio_buffer st') (j * 2 + 1) = Some v /\
         rd (g_audio_buffer st') (j * 2) = rd (g_audio_buffer st) (j * 2)) /\
      (audio_channel st = 0 ->
         rd (g_audio_buffer st') (j * 2) = Some v /\
         rd (g_audio_buffer st') (j * 2 + 1) = rd (g_audio_buffer st') (j * 2)).
Proof.
  intros Hx Hiq Hbuf.
  destruct (sdr_callback_frames A iqBuffer len st Hx) as (st' & E & _ & _ & _ & _ & F);
    [lia | exact Hbuf |].
  exists st'. split; [exact E |].
  intros j Hj v. subst v. destruct (F j Hj) as [F0 F1].
  split; [| split]; intros Hch; rewrite Hch in F0, F1;
    cbn [Z.eqb Pos.eqb orb] in F0, F1; split; congruence.
Qed.

Lemma C8_witness :
  do_exit (initial_state ieee 1) = 0 /\
  Z.of_nat (List.length (constant_buffer "255"%byte)) = SDR_BUFFER_LENGTH /\
  sized (initial_state ieee 1) /\
  exists st',
    sdr_callback ieee (constant_buffer "255"%byte) SDR_BUFFER_LENGTH (initial_state ieee 1)
      = Some st' /\
    rd (g_audio_buffer st') (3 * 2) = Some 1%float /\
    rd (g_audio_buffer st') (3 * 2 + 1) = Some 0%float.
Proof.
  split; [reflexivity |]. split; [apply constant_buffer_length |].
  split; [apply initial_state_sized |].
  destruct (C8_channel_routing ieee (constant_buffer "255"%byte) SDR_BUFFER_LENGTH
              (initial_state ieee 1) eq_refl (constant_buffer_length "255"%byte)
              (initial_state_sized ieee 1)) as (st' & E & F).
  exists st'. split; [exact E |].
  assert (Hj : 0 <= 3 < AUDIO_BUFFER_LENGTH) by (unfold AUDIO_BUFFER_LENGTH; lia).
  destruct (F 3 Hj) as [Left _]. destruct (Left eq_refl) as [F0 F1].
  rewrite F0, F1. split; vm_compute; reflexivity.
Defined.

(** ** No state carried from call to call (C6) *)

(** C6. Two consecutive invocations with the same raw buffer (of the
    expected length) and the same length argument, the flag clear: both
    return, the routing mode is the same for both, the output buffer after
    the second is the output buffer after the first, and the second appends
    to the trace the very events the first appended (the same meter width,
    the same frames to the sink). *)
Theorem C6_same_input_same_output (A : arith) (iqBuffer : list byte) (len : Z)
    (st : state A) :
  do_exit st = 0 ->
  Z.of_nat (List.length iqBuffer) = SDR_BUFFER_LENGTH ->
  sized st ->
  exists st1 st2 out,
    sdr_callback A iqBuffer len st = Some st1 /\
    sdr_callback A iqBuffer len st1 = Some st2 /\
    audio_channel st1 = audio_channel st /\
    g_audio_buffer st2 = g_audio_buffer st1 /\
    trace st1 = trace st ++ out /\
    trace st2 = trace st1 ++ out.
Proof.
  intros Hx Hiq Hbuf.
  assert (Hiq' : SDR_BUFFER_LENGTH <= Z.of_nat (List.length iqBuffer)) by lia.
  destruct (sdr_callback_frames A iqBuffer len st Hx Hiq' Hbuf)
    as (st1 & E1 & Hch & _ & _ & T1 & _).
  destruct (sdr_callback_again A iqBuffer len len st st1 Hx Hiq' Hbuf E1)
    as (st2 & E2 & B2 & T2).
  exists st1, st2, (emitted A iqBuffer (g_audio_buffer st1)).
  repeat split; assumption.
Qed.

Lemma C6_witness :
  do_exit (initial_state ieee 2) = 0 /\
  Z.of_nat (List.length (constant_buffer "200"%byte)) = SDR_BUFFER_LENGTH /\
  sized (initial_state ieee 2) /\
  exists st1 st2 out,
    sdr_callback ieee (constant_buffer "200"%byte) SDR_BUFFER_LENGTH (initial_state ieee 2)
      = Some st1 /\
    sdr_callback ieee (constant_buffer "200"%byte) SDR_BUFFER_LENGTH st1 = Some st2 /\
    audio_channel st1 = audio_channel (initial_state ieee 2) /\
    g_audio_buffer st2 = g_audio_buffer st1 /\
    trace st1 = trace (initial_state ieee 2) ++ out /\
    trace st2 = trace st1 ++ out.
Proof.
  split; [reflexivity |]. split; [apply constant_buffer_length |].
  split; [apply initial_state_sized |].
  exact (C6_same_input_same_output ieee (constant_buffer "200"%byte) SDR_BUFFER_LENGTH
           (initial_state ieee 2) eq_refl (constant_buffer_length "200"%byte)
           (initial_state_sized ieee 2)).
Defined.

(** ** The comparison [a > maxA] in the two instances *)

Lemma SFltb_irrefl (x : spec_float) : SFltb x x = false.
Proof.
  unfold SFltb. destruct x as [s | s | | s m e]; simpl; try reflexivity.
  - destruct s; reflexivity.
  - destruct s; rewrite Z.compare_refl, Pos.compare_cont_refl; reflexivity.
Qed.

Lemma SFltb_chain (x y z : spec_float) :
  SFltb x y = true -> SFltb x z = false -> SFltb y z = false.
Proof.
  unfold SFltb.
  destruct x as [sx | sx | | sx mx ex], y as [sy | sy | | sy my ey],
           z as [sz | sz | | sz mz ez];
    try destruct sx; try destruct sy; try destruct sz; simpl;
    try discriminate; try reflexivity;
    change (Pos.compare_cont Eq) with Pos.compare.
  all: try (destruct (Z.compare_spec ex ey); try discriminate).
  all: try (destruct (Z.compare_spec ex ez); try discriminate).
  all: try (destruct (Z.compare_spec ey ez); try reflexivity).
  all: try lia.
  all: subst.
  all: try (destruct (Pos.compare_spec mx my); try discriminate).
  all: try (destruct (Pos.compare_spec mx mz); try discriminate).
  all: try (destruct (Pos.compare_spec my mz); try reflexivity).
  all: simpl; try discriminate; try reflexivity; try lia.
Qed.

(** IEEE comparison, NaN included. *)
Lemma ieee_gt_order : gt_order ieee.
Proof.
  split; cbn [d_gt ieee]; unfold IEEE.gt.
  - intros x. rewrite FloatAxioms.ltb_spec. apply SFltb_irrefl.
  - intros a m c. rewrite !FloatAxioms.ltb_spec. apply SFltb_chain.
Qed.

Lemma exact_gt_order : gt_order exact.
Proof.
  split; cbn [d_gt exact]; unfold Exact.gt.
  - intros x. destruct (Rlt_dec x x); [lra | reflexivity].
  - intros a m c.
    destruct (Rlt_dec m a); [| discriminate].
    destruct (Rlt_dec m c); [discriminate |].
    destruct (Rlt_dec a c); [lra | reflexivity].
Qed.

(** ** The peak level (C7) *)

Section Peak.

Variable A : arith.
Hypothesis gt_ok : gt_order A.

Lemma bump_keeps (c m a : dbl A) :
  d_gt A c m = false -> d_gt A c (bump A m a) = false.
Proof.
  intros Hc. unfold bump. destruct (d_gt A a m) eqn:Ha; [| exact Hc].
  exact (gt_chain A gt_ok a m c Ha Hc).
Qed.

Lemma bump_self (m a : dbl A) : d_gt A a (bump A m a) = false.
Proof.
  unfold bump. destruct (d_gt A a m) eqn:Ha; [| exact Ha].
  apply (gt_irrefl A gt_ok).
Qed.

Lemma peak_from_keeps (iqBuffer : list byte) (js : list Z) :
  forall (m c : dbl A),
    d_gt A c m = false -> d_gt A c (peak_from A iqBuffer js m) = false.
Proof.
  induction js as [| j js IH]; intros m c Hc; [exact Hc |].
  rewrite peak_from_cons. apply IH. now apply bump_keeps.
Qed.

(** No frame is above the value the loop ends with. *)
Lemma peak_from_upper (iqBuffer : list byte) (js : list Z) :
  forall (m : dbl A) (j : Z),
    In j js -> d_gt A (a_at A iqBuffer j) (peak_from A iqBuffer js m) = false.
Proof.
  induction js as [| j0 js IH]; intros m j Hin; [contradiction |].
  rewrite peak_from_cons. destruct Hin as [-> | Hin].
  - apply peak_from_keeps. apply bump_self.
  - now apply IH.
Qed.

End Peak.

(** The value the loop ends with is the one it started from or the [a] of
    one of the frames. *)
Lemma peak_from_attained (A : arith) (iqBuffer : list byte) (js : list Z) :
  forall (m : dbl A),
    peak_from A iqBuffer js m = m \/
    exists j, In j js /\ peak_from A iqBuffer js m = a_at A iqBuffer j.
Proof.
  induction js as [| j0 js IH]; intros m; [now left |].
  rewrite peak_from_cons.
  destruct (IH (bump A m (a_at A iqBuffer j0))) as [E | (j & Hin & E)].
  - rewrite E. unfold bump. destruct (d_gt A (a_at A iqBuffer j0) m).
    + right. exists j0. split; [now left | reflexivity].
    + now left.
  - right. exists j. split; [now right | exact E].
Qed.

(** *** Raw buffers of one repeated byte *)

Section ConstantBuffers.

Variable A : arith.

Lemma raw_constant_buffer (b : byte) (idx : Z) :
  0 <= idx < SDR_BUFFER_LENGTH -> raw (constant_buffer b) idx = uchar b.
Proof.
  intros Hidx. unfold raw, constant_buffer. f_equal.
  apply nth_error_nth. apply nth_error_repeat. lia.
Qed.

Lemma decimate_constant_buffer (b : byte) (j : Z) :
  0 <= j < AUDIO_BUFFER_LENGTH ->
  decimate A (constant_buffer b) j = Some (constant_mean A b, constant_mean A b).
Proof.
  intros Hj. rewrite decimate_in_frame;
    [| rewrite constant_buffer_length; lia | exact Hj].
  unfold decimated_I_spec, decimated_Q_spec, constant_mean.
  assert (Hk : forall k, In k (zrange 0 (Z.to_nat SDR_SAMPLE_RATIO)) -> 0 <= k < 5).
  { intros k Hin. apply zrange_In in Hin. simpl Z.of_nat in Hin. lia. }
  f_equal; f_equal; f_equal; apply map_ext_in; intros k Hin; apply Hk in Hin;
    rewrite raw_constant_buffer; try reflexivity;
    unfold SDR_BUFFER_LENGTH, AUDIO_BUFFER_LENGTH, SDR_SAMPLE_RATIO in *; lia.
Qed.

Lemma bump_twice (m a : dbl A) : bump A (bump A m a) a = bump A m a.
Proof.
  unfold bump. destruct (d_gt A a m) eqn:E.
  - now destruct (d_gt A a a).
  - now rewrite E.
Qed.

(** When every frame has the same magnitude, the loop ends with [maxA] as
    the first frame left it. *)
Lemma peak_from_constant (iqBuffer : list byte) (a : dbl A) (js : list Z) :
  (forall j, In j js -> a_at A iqBuffer j = a) ->
  forall m, peak_from A iqBuffer js m =
            match js with
            | [] => m
            | _ :: _ => bump A m a
            end.
Proof.
  induction js as [| j js IH]; intros Hall m; [reflexivity |].
  rewrite peak_from_cons, (Hall j) by now left.
  rewrite IH by (intros j' Hin; apply Hall; now right).
  destruct js; [reflexivity | apply bump_twice].
Qed.

Lemma peak_constant_buffer (b : byte) :
  peak A (constant_buffer b) =
  bump A (d_of_int A 0) (magnitude A (constant_mean A b) (constant_mean A b)).
Proof.
  rewrite peak_unfold.
  rewrite (peak_from_constant (constant_buffer b)
             (magnitude A (constant_mean A b) (constant_mean A b))).
  - change (Z.to_nat AUDIO_BUFFER_LENGTH) with (S (Z.to_nat (AUDIO_BUFFER_LENGTH - 1))).
    reflexivity.
  - intros j Hin. apply zrange_In in Hin.
    rewrite Z2Nat.id in Hin by (cbv; discriminate).
    unfold a_at. rewrite decimate_constant_buffer by lia. reflexivity.
Qed.

End ConstantBuffers.

(** C7, at a concrete input.  Routing mode 0, a raw buffer of 163840 bytes
    [0xFF]: every frame has [i = q = 1], so every frame's envelope magnitude,
    and their maximum, is [sqrt 2]; the meter is written with the width 42,
    which is [(int)(sqrt 2 * 30)], not [sqrt 2]. *)
Lemma C7_counterexample :
  exists st' frames,
    sdr_callback ieee (constant_buffer "255"%byte) SDR_BUFFER_LENGTH (initial_state ieee 0)
      = Some st' /\
    trace st' = [EvMeter ieee 42; EvWritei ieee frames AUDIO_BUFFER_LENGTH] /\
    (forall j, 0 <= j < AUDIO_BUFFER_LENGTH ->
       decimate ieee (constant_buffer "255"%byte) j = Some (1%float, 1%float)) /\
    PrimFloat.sqrt (1 * 1 + 1 * 1) = PrimFloat.sqrt 2 /\
    PrimFloat.ltb (PrimFloat.sqrt 2) 2 = true /\
    PrimFloat.eqb (d_of_int ieee 42) (PrimFloat.sqrt 2) = false.
Proof.
  destruct (sdr_callback_frames ieee (constant_buffer "255"%byte) SDR_BUFFER_LENGTH
              (initial_state ieee 0)) as (st' & E & _ & _ & _ & T & _).
  - reflexivity.
  - rewrite constant_buffer_length. lia.
  - apply initial_state_sized.
  - exists st'. eexists. split; [exact E |]. split.
    + rewrite T. change (trace (initial_state ieee 0)) with (@nil (event ieee)).
      unfold emitted. rewrite peak_constant_buffer. cbn [app].
      replace (d_to_int ieee
                 (bump ieee (d_of_int ieee 0)
                    (magnitude ieee (constant_mean ieee "255"%byte)
                       (constant_mean ieee "255"%byte)) * d_of_int ieee 30)%dbl)
        with 42 by (vm_compute; reflexivity).
      reflexivity.
    + split.
      * intros j Hj. rewrite decimate_constant_buffer by exact Hj.
        replace (constant_mean ieee "255"%byte) with 1%float by (vm_compute; reflexivity).
        reflexivity.
      * repeat split; vm_compute; reflexivity.
Qed.

(** C7, as the code has it.  With the flag clear and a raw buffer of the
    expected length, the callback returns and the meter it writes shows
    [(int)(maxA * 30)], where no output frame of the invocation has an
    envelope magnitude [sqrt (i*i + q*q)] above [maxA], and [maxA] is the
    magnitude of one of these frames or the 0 it is reset to when the call
    starts.  [maxA] comes from the raw buffer of this invocation alone: run
    from any other state, whatever was processed before, the callback writes
    the same width. *)
Theorem C7_peak_is_maximum_of_call (A : arith) (iqBuffer : list byte) (len : Z)
    (st : state A) :
  gt_order A ->
  do_exit st = 0 ->
  Z.of_nat (List.length iqBuffer) = SDR_BUFFER_LENGTH ->
  sized st ->
  exists st' frames maxA,
    sdr_callback A iqBuffer len st = Some st' /\
    trace st' = trace st ++
      [EvMeter A (d_to_int A (maxA * d_of_int A 30)%dbl);
       EvWritei A frames AUDIO_BUFFER_LENGTH] /\
    (forall j, 0 <= j < AUDIO_BUFFER_LENGTH ->
       exists i q, decimate A iqBuffer j = Some (i, q) /\
                   d_gt A (d_sqrt A (i * i + q * q)%dbl) maxA = false) /\
    (maxA = d_of_int A 0 \/
     exists j i q, 0 <= j < AUDIO_BUFFER_LENGTH /\
                   decimate A iqBuffer j = Some (i, q) /\
                   maxA = d_sqrt A (i * i + q * q)%dbl) /\
    (forall (len2 : Z) (st2 : state A),
       do_exit st2 = 0 -> sized st2 ->
       exists st2' frames2,
         sdr_callback A iqBuffer len2 st2 = Some st2' /\
         trace st2' = trace st2 ++
           [EvMeter A (d_to_int A (maxA * d_of_int A 30)%dbl);
            EvWritei A frames2 AUDIO_BUFFER_LENGTH]).
Proof.
  intros Hgt Hx Hiq Hbuf.
  assert (Hiq' : SDR_BUFFER_LENGTH <= Z.of_nat (List.length iqBuffer)) by lia.
  destruct (sdr_callback_frames A iqBuffer len st Hx Hiq' Hbuf)
    as (st' & E & _ & _ & _ & T & _).
  assert (Frame : forall j, 0 <= j < AUDIO_BUFFER_LENGTH ->
            exists i q, decimate A iqBuffer j = Some (i, q) /\
                        a_at A iqBuffer j = d_sqrt A (i * i + q * q)%dbl).
  { intros j Hj.
    assert (Ed : decimate A iqBuffer j =
                 Some (decimated_I_spec A iqBuffer SDR_SAMPLE_RATIO j,
                       decimated_Q_spec A iqBuffer SDR_SAMPLE_RATIO j))
      by (apply decimate_in_frame; [exact Hiq' | exact Hj]).
    do 2 eexists. split; [exact Ed |]. unfold a_at. rewrite Ed. reflexivity. }
  exists st'. eexists. exists (peak A iqBuffer).
  split; [exact E |]. split; [exact T |]. split; [| split].
  - intros j Hj. destruct (Frame j Hj) as (i & q & Ed & Ea).
    exists i, q. split; [exact Ed |]. rewrite <- Ea.
    apply peak_from_upper; [exact Hgt |].
    apply zrange_In. rewrite Z2Nat.id by (cbv; discriminate). lia.
  - destruct (peak_from_attained A iqBuffer (zrange 0 (Z.to_nat AUDIO_BUFFER_LENGTH))
                (d_of_int A 0)) as [E0 | (j & Hin & Ej)].
    + now left.
    + right. apply zrange_In in Hin. rewrite Z2Nat.id in Hin by (cbv; discriminate).
      assert (Hj : 0 <= j < AUDIO_BUFFER_LENGTH) by lia.
      destruct (Frame j Hj) as (i & q & Ed & Ea).
      exists j, i, q. split; [exact Hj |]. split; [exact Ed |].
      rewrite <- Ea. exact Ej.
  - intros len2 st2 Hx2 Hbuf2.
    destruct (sdr_callback_frames A iqBuffer len2 st2 Hx2 Hiq' Hbuf2)
      as (st2' & E2 & _ & _ & _ & T2 & _).
    exists st2'. eexists. split; [exact E2 | exact T2].
Qed.

Lemma C7_witness :
  gt_order ieee /\
  do_exit (initial_state ieee 0) = 0 /\
  Z.of_nat (List.length (constant_buffer "255"%byte)) = SDR_BUFFER_LENGTH /\
  sized (initial_state ieee 0) /\
  exists st' frames maxA,
    sdr_callback ieee (constant_buffer "255"%byte) SDR_BUFFER_LENGTH (initial_state ieee 0)
      = Some st' /\
    trace st' = trace (initial_state ieee 0) ++
      [EvMeter ieee (d_to_int ieee (maxA * d_of_int ieee 30)%dbl);
       EvWritei ieee frames AUDIO_BUFFER_LENGTH].
Proof.
  split; [exact ieee_gt_order |]. split; [reflexivity |].
  split; [apply constant_buffer_length |]. split; [apply initial_state_sized |].
  destruct (C7_peak_is_maximum_of_call ieee (constant_buffer "255"%byte)
              SDR_BUFFER_LENGTH (initial_state ieee 0) ieee_gt_order eq_refl
              (constant_buffer_length "255"%byte) (initial_state_sized ieee 0))
    as (st' & frames & maxA & E & T & _).
  exists st', frames, maxA. split; [exact E | exact T].
Defined.

(** ** The exit status (C9) *)

(** C9, at concrete inputs.  The delivery loop returns 0 while the flag is
    clear: the status is 0, though no shutdown was requested.  The loop
    returns 7 after [sighandler] has set the flag: the status is 7. *)
Lemma C9_counterexample :
  do_exit (initial_state ieee 0) = 0 /\
  snd (main_exit ieee 0 (initial_state ieee 0)) = 0 /\
  do_exit (sighandler ieee 2 (initial_state ieee 0)) = 1 /\
  snd (main_exit ieee 7 (sighandler ieee 2 (initial_state ieee 0))) = 7 /\
  ~ (snd (main_exit ieee 0 (initial_state ieee 0)) = 0 <->
     do_exit (initial_state ieee 0) <> 0 /\ 0 <= 0).
Proof.
  repeat split; try reflexivity.
  intros [H _]. destruct (H eq_refl) as [Hx _]. apply Hx. reflexivity.
Qed.

(** C9, as the code has it.  For a return code [r] of the delivery loop
    above [INT_MIN], [main] returns the magnitude of [r], whatever the flag
    is: 0 exactly when [r] is 0.  The flag chooses the message only: the
    user-cancel line when it is set, the library-error line with [r]
    otherwise; the device is closed and the sink drained and closed either
    way. *)
Theorem C9_exit_status_is_magnitude (A : arith) (r : Z) (st : state A) :
  INT_MIN < r < 2 ^ 31 ->
  snd (main_exit A r st) = Z.abs r /\
  (snd (main_exit A r st) = 0 <-> r = 0) /\
  trace (fst (main_exit A r st)) =
    trace st ++
    [if negb (do_exit st =? 0)
     then EvStderr A (newline ++ "User cancel, exiting..." ++ newline)%string
     else EvLibraryError A r;
     EvSdrClose A; EvPcmDrain A; EvPcmClose A].
Proof.
  intros Hr. unfold INT_MIN in Hr.
  assert (E : snd (main_exit A r st) = Z.abs r).
  { unfold main_exit. cbn [snd].
    destruct (Z.geb_spec r 0) as [Hge | Hlt].
    - lia.
    - unfold wrap32. rewrite Z.mod_small by lia. lia. }
  split; [exact E |]. split; [rewrite E; lia | reflexivity].
Qed.

Lemma C9_witness :
  INT_MIN < -5 < 2 ^ 31 /\
  snd (main_exit ieee (-5) (initial_state ieee 0)) = Z.abs (-5).
Proof.
  assert (Hr : INT_MIN < -5 < 2 ^ 31) by (unfold INT_MIN; lia).
  split; [exact Hr |].
  exact (proj1 (C9_exit_status_is_magnitude ieee (-5) (initial_state ieee 0) Hr)).
Defined.

(** ** The range of the stored values (C3) *)

(** C3, at a concrete input.  Routing mode 0, a raw buffer of 163840 bytes
    [0x00]: slot 0 of the output buffer holds [-1] after the call, which is
    below 0. *)
Lemma C3_counterexample :
  exists st',
    sdr_callback ieee (constant_buffer "000"%byte) SDR_BUFFER_LENGTH (initial_state ieee 0)
      = Some st' /\
    rd (g_audio_buffer st') 0 = Some (-1)%float /\
    PrimFloat.ltb (-1) 0 = true /\
    PrimFloat.leb 0 (-1) = false.
Proof.
  destruct (sdr_callback_frames ieee (constant_buffer "000"%byte) SDR_BUFFER_LENGTH
              (initial_state ieee 0)) as (st' & E & _ & _ & _ & _ & F).
  - reflexivity.
  - rewrite constant_buffer_length. lia.
  - apply initial_state_sized.
  - exists st'. split; [exact E |].
    assert (Hj : 0 <= 0 < AUDIO_BUFFER_LENGTH) by (unfold AUDIO_BUFFER_LENGTH; lia).
    destruct (F 0 Hj) as [F0 _].
    change (0 * 2) with 0 in F0. rewrite F0.
    repeat split; vm_compute; reflexivity.
Qed.

Section ExactRange.

Local Open Scope R_scope.

Lemma exact_amplitude_range (v : Z) :
  (0 <= v <= 255)%Z -> -1 <= amplitude exact v <= 1.
Proof.
  intros [Hlo Hhi]. unfold amplitude. cbn [d_sub d_div d_of_int d_127_5 exact].
  apply IZR_le in Hlo, Hhi. lra.
Qed.

Lemma exact_sum_range (xs : list R) :
  (forall x, In x xs -> -1 <= x <= 1) ->
  forall s, s - INR (List.length xs) <= fold_left Rplus xs s <= s + INR (List.length xs).
Proof.
  induction xs as [| x xs IH]; intros Hxs s.
  - simpl. lra.
  - cbn [fold_left List.length]. rewrite S_INR.
    assert (Hx : -1 <= x <= 1) by (apply Hxs; now left).
    specialize (IH (fun y Hy => Hxs y (or_intror Hy)) (s + x)). lra.
Qed.

Lemma exact_mean_range (xs : list R) :
  xs <> [] ->
  (forall x, In x xs -> -1 <= x <= 1) ->
  -1 <= mean_of exact xs <= 1.
Proof.
  intros Hne Hxs. unfold mean_of, sum_of.
  cbn [d_add d_div d_of_int exact].
  assert (Hn : 0 < INR (List.length xs)).
  { apply lt_0_INR. destruct xs; [contradiction | simpl; lia]. }
  rewrite <- INR_IZR_INZ.
  assert (H := exact_sum_range xs Hxs 0).
  set (n := INR (List.length xs)) in *.
  set (total := fold_left Rplus xs 0) in *.
  assert (Hi : 0 <= / n) by (apply Rlt_le, Rinv_0_lt_compat; exact Hn).
  assert (E1 : n * / n = 1) by (apply Rinv_r; lra).
  assert (H1 := Rmult_le_compat_r _ _ _ Hi (proj1 H)).
  assert (H2 := Rmult_le_compat_r _ _ _ Hi (proj2 H)).
  replace ((0 - n) * / n) with (- (n * / n)) in H1 by ring.
  replace ((0 + n) * / n) with (n * / n) in H2 by ring.
  rewrite E1 in H1, H2. unfold Rdiv. split; assumption.
Qed.

Lemma exact_decimated_Q_range (iqBuffer : list byte) (j : Z) :
  -1 <= decimated_Q_spec exact iqBuffer SDR_SAMPLE_RATIO j <= 1.
Proof.
  unfold decimated_Q_spec. apply exact_mean_range.
  - discriminate.
  - intros x Hin. apply in_map_iff in Hin as (k & <- & _).
    apply exact_amplitude_range. apply uchar_range.
Qed.

Lemma exact_decimated_I_range (iqBuffer : list byte) (j : Z) :
  -1 <= decimated_I_spec exact iqBuffer SDR_SAMPLE_RATIO j <= 1.
Proof.
  unfold decimated_I_spec. apply exact_mean_range.
  - discriminate.
  - intros x Hin. apply in_map_iff in Hin as (k & <- & _).
    apply exact_amplitude_range. apply uchar_range.
Qed.

End ExactRange.

(** *** In binary64 *)

Lemma mem_sound (x : float) (t : Table.tree) :
  Table.mem x t = true -> In x (Table.elements t).
Proof.
  induction t as [| l IHl y r IHr]; cbn [Table.mem Table.elements]; [discriminate |].
  destruct (PrimFloat.Leibniz.eqb x y) eqn:E.
  - intros _. apply FloatAxioms.Leibniz.eqb_spec in E. subst y.
    apply in_or_app. right. now left.
  - destruct (PrimFloat.ltb x y); intros H; apply in_or_app;
      [left | right; right]; auto.
Qed.

Lemma closed_under_add_sound (t t' : Table.tree) :
  Table.closed_under_add t t' = true ->
  forall s a,
    Table.mem s t = true -> In a Table.amplitudes ->
    Table.mem (d_add ieee s a) t' = true.
Proof.
  unfold Table.closed_under_add. intros H s a Hs Ha.
  rewrite forallb_forall in H. specialize (H s (mem_sound s t Hs)).
  rewrite forallb_forall in H. exact (H a Ha).
Qed.

Lemma sums_closed_1 : Table.closed_under_add Table.sums0 Table.sums1 = true.
Proof. vm_compute. reflexivity. Qed.

Lemma sums_closed_2 : Table.closed_under_add Table.sums1 Table.sums2 = true.
Proof. vm_compute. reflexivity. Qed.

Lemma sums_closed_3 : Table.closed_under_add Table.sums2 Table.sums3 = true.
Proof. vm_compute. reflexivity. Qed.

Lemma sums_closed_4 : Table.closed_under_add Table.sums3 Table.sums4 = true.
Proof. vm_compute. reflexivity. Qed.

Lemma sums_closed_5 : Table.closed_under_add Table.sums4 Table.sums5 = true.
Proof. vm_compute. reflexivity. Qed.

(** Every sum of five amplitudes, divided by 5 and converted to [float], is
    in [[-1, 1]]. *)
Lemma sums5_in_range :
  forallb (fun s => in_unit_range
                      (d_to_flt ieee (d_div ieee s (d_of_int ieee SDR_SAMPLE_RATIO))))
          (Table.elements Table.sums5) = true.
Proof. vm_compute. reflexivity. Qed.

Lemma amplitude_in_table (v : Z) :
  0 <= v <= 255 -> In (amplitude ieee v) Table.amplitudes.
Proof.
  intros Hv. unfold Table.amplitudes. apply in_map. apply zrange_In. simpl. lia.
Qed.

Lemma ieee_mean5_in_range (v0 v1 v2 v3 v4 : Z) :
  0 <= v0 <= 255 -> 0 <= v1 <= 255 -> 0 <= v2 <= 255 ->
  0 <= v3 <= 255 -> 0 <= v4 <= 255 ->
  in_unit_range
    (d_to_flt ieee (mean_of ieee (map (amplitude ieee) [v0; v1; v2; v3; v4]))) = true.
Proof.
  intros H0 H1 H2 H3 H4.
  unfold mean_of, sum_of. cbn [map fold_left List.length].
  assert (M0 : Table.mem (d_of_int ieee 0) Table.sums0 = true) by reflexivity.
  assert (M1 := closed_under_add_sound _ _ sums_closed_1 _ _ M0 (amplitude_in_table v0 H0)).
  assert (M2 := closed_under_add_sound _ _ sums_closed_2 _ _ M1 (amplitude_in_table v1 H1)).
  assert (M3 := closed_under_add_sound _ _ sums_closed_3 _ _ M2 (amplitude_in_table v2 H2)).
  assert (M4 := closed_under_add_sound _ _ sums_closed_4 _ _ M3 (amplitude_in_table v3 H3)).
  assert (M5 := closed_under_add_sound _ _ sums_closed_5 _ _ M4 (amplitude_in_table v4 H4)).
  assert (R := sums5_in_range). rewrite forallb_forall in R.
  exact (R _ (mem_sound _ _ M5)).
Qed.

Lemma ieee_decimated_Q_in_range (iqBuffer : list byte) (j : Z) :
  in_unit_range (d_to_flt ieee (decimated_Q_spec ieee iqBuffer SDR_SAMPLE_RATIO j)) = true.
Proof.
  unfold decimated_Q_spec.
  change (zrange 0 (Z.to_nat SDR_SAMPLE_RATIO)) with [0; 1; 2; 3; 4].
  cbn [map]. unfold raw.
  apply (ieee_mean5_in_range _ _ _ _ _); apply uchar_range.
Qed.

Lemma ieee_decimated_I_in_range (iqBuffer : list byte) (j : Z) :
  in_unit_range (d_to_flt ieee (decimated_I_spec ieee iqBuffer SDR_SAMPLE_RATIO j)) = true.
Proof.
  unfold decimated_I_spec.
  change (zrange 0 (Z.to_nat SDR_SAMPLE_RATIO)) with [0; 1; 2; 3; 4].
  cbn [map]. unfold raw.
  apply (ieee_mean5_in_range _ _ _ _ _); apply uchar_range.
Qed.

(** C3, as the code has it.  With the flag clear, a raw buffer of the
    expected length and the output array at its declared size, the callback
    returns and every value it stores (the slots of output frame [j] that the
    routing mode selects) lies in [[-1, 1]].  This is the binary64 and
    binary32 arithmetic of the code, rounding included. *)
Theorem C3_stored_values_in_range (iqBuffer : list byte) (len : Z)
    (st : state ieee) (j : Z) :
  do_exit st = 0 ->
  Z.of_nat (List.length iqBuffer) = SDR_BUFFER_LENGTH ->
  sized st ->
  0 <= j < AUDIO_BUFFER_LENGTH ->
  exists st' v,
    sdr_callback ieee iqBuffer len st = Some st' /\
    in_unit_range v = true /\
    (selects (audio_channel st) (j * 2) = true ->
     rd (g_audio_buffer st') (j * 2) = Some v) /\
    (selects (audio_channel st) (j * 2 + 1) = true ->
     rd (g_audio_buffer st') (j * 2 + 1) = Some v).
Proof.
  intros Hx Hiq Hbuf Hj.
  destruct (sdr_callback_frames ieee iqBuffer len st Hx) as (st' & E & _ & _ & _ & _ & F);
    [lia | exact Hbuf |].
  exists st', (d_to_flt ieee (decimated_Q_spec ieee iqBuffer SDR_SAMPLE_RATIO j)).
  split; [exact E |]. split; [apply ieee_decimated_Q_in_range |].
  assert (Eq : q_at ieee iqBuffer j = decimated_Q_spec ieee iqBuffer SDR_SAMPLE_RATIO j).
  { unfold q_at. rewrite decimate_in_frame; [reflexivity | lia | exact Hj]. }
  destruct (F j Hj) as [F0 F1]. rewrite Eq in F0, F1.
  rewrite selects_even, selects_odd.
  split; intros Hsel; [rewrite Hsel in F0; exact F0 | rewrite Hsel in F1; exact F1].
Qed.

Lemma C3_witness :
  do_exit (initial_state ieee 0) = 0 /\
  Z.of_nat (List.length (constant_buffer "000"%byte)) = SDR_BUFFER_LENGTH /\
  sized (initial_state ieee 0) /\
  0 <= 0 < AUDIO_BUFFER_LENGTH /\
  exists st' v,
    sdr_callback ieee (constant_buffer "000"%byte) SDR_BUFFER_LENGTH (initial_state ieee 0)
      = Some st' /\
    in_unit_range v = true /\
    (selects (audio_channel (initial_state ieee 0)) (0 * 2) = true ->
     rd (g_audio_buffer st') (0 * 2) = Some v) /\
    (selects (audio_channel (initial_state ieee 0)) (0 * 2 + 1) = true ->
     rd (g_audio_buffer st') (0 * 2 + 1) = Some v).
Proof.
  assert (Hj : 0 <= 0 < AUDIO_BUFFER_LENGTH) by (unfold AUDIO_BUFFER_LENGTH; lia).
  split; [reflexivity |]. split; [apply constant_buffer_length |].
  split; [apply initial_state_sized |]. split; [exact Hj |].
  exact (C3_stored_values_in_range (constant_buffer "000"%byte) SDR_BUFFER_LENGTH
           (initial_state ieee 0) 0 eq_refl (constant_buffer_length "000"%byte)
           (initial_state_sized ieee 0) Hj).
Defined.

(** *** In real arithmetic *)

(** The same range for ideal magnitudes: in real arithmetic too, every value
    the callback stores lies in [[-1, 1]]. *)
Lemma exact_stored_values_in_range (iqBuffer : list byte) (len : Z)
    (st : state exact) (j : Z) :
  do_exit st = 0 ->
  Z.of_nat (List.length iqBuffer) = SDR_BUFFER_LENGTH ->
  sized st ->
  0 <= j < AUDIO_BUFFER_LENGTH ->
  exists st' v,
    sdr_callback exact iqBuffer len st = Some st' /\
    (-1 <= v <= 1)%R /\
    (selects (audio_channel st) (j * 2) = true ->
     rd (g_audio_buffer st') (j * 2) = Some v) /\
    (selects (audio_channel st) (j * 2 + 1) = true ->
     rd (g_audio_buffer st') (j * 2 + 1) = Some v).
Proof.
  intros Hx Hiq Hbuf Hj.
  destruct (sdr_callback_frames exact iqBuffer len st Hx) as (st' & E & _ & _ & _ & _ & F);
    [lia | exact Hbuf |].
  exists st', (decimated_Q_spec exact iqBuffer SDR_SAMPLE_RATIO j).
  split; [exact E |]. split; [apply exact_decimated_Q_range |].
  assert (Eq : q_at exact iqBuffer j = decimated_Q_spec exact iqBuffer SDR_SAMPLE_RATIO j).
  { unfold q_at. rewrite decimate_in_frame; [reflexivity | lia | exact Hj]. }
  destruct (F j Hj) as [F0 F1]. rewrite Eq in F0, F1.
  rewrite selects_even, selects_odd.
  split; intros Hsel; [rewrite Hsel in F0; exact F0 | rewrite Hsel in F1; exact F1].
Qed.


(** * Further properties of the code *)

(** ** When the callback leaves its arrays *)

Section OutOfBounds.

Variable A : arith.

Lemma sum_loop_Some_length (iqBuffer : list byte) (j : Z) (n : nat) :
  forall (k : Z) (sumI sumQ : dbl A) (r : dbl A * dbl A),
    sum_loop A iqBuffer j (S n) k sumI sumQ = Some r ->
    iq_index j (k + Z.of_nat n) + 1 < Z.of_nat (List.length iqBuffer).
Proof.
  induction n as [| n IH]; intros k sumI sumQ r E.
  - cbn [sum_loop] in E.
    destruct (rd iqBuffer (iq_index j k)) as [bi |]; [| discriminate].
    destruct (rd iqBuffer (iq_index j k + 1)) as [bq |] eqn:Eq; [| discriminate].
    apply rd_Some_range in Eq. replace (k + Z.of_nat 0) with k by lia. lia.
  - remember (S n) as m. cbn [sum_loop] in E.
    destruct (rd iqBuffer (iq_index j k)) as [bi |]; [| discriminate].
    destruct (rd iqBuffer (iq_index j k + 1)) as [bq |]; [| discriminate].
    subst m. apply IH in E.
    replace (k + Z.of_nat (S n)) with (k + 1 + Z.of_nat n) by lia. exact E.
Qed.

Lemma decimate_Some_length (iqBuffer : list byte) (j : Z) (r : dbl A * dbl A) :
  decimate A iqBuffer j = Some r ->
  (j + 1) * (SDR_SAMPLE_RATIO * 2) <= Z.of_nat (List.length iqBuffer).
Proof.
  unfold decimate. change (Z.to_nat SDR_SAMPLE_RATIO) with 5%nat.
  destruct (sum_loop A iqBuffer j 5 0 (d_of_int A 0) (d_of_int A 0))
    as [[sumI sumQ] |] eqn:E; [| discriminate].
  intros _. apply sum_loop_Some_length in E.
  unfold iq_index, SDR_SAMPLE_RATIO in *. simpl Z.of_nat in E. lia.
Qed.

Lemma frame_loop_Some_length (iqBuffer : list byte) (ch : Z) (n : nat) :
  forall (j : Z) (maxA : dbl A) (buf : list (flt A)) (r : dbl A * list (flt A)),
    frame_loop A iqBuffer ch (S n) j maxA buf = Some r ->
    (j + Z.of_nat (S n)) * (SDR_SAMPLE_RATIO * 2) <= Z.of_nat (List.length iqBuffer).
Proof.
  induction n as [| n IH]; intros j maxA buf r E.
  - cbn [frame_loop] in E.
    destruct (decimate A iqBuffer j) as [[i q] |] eqn:Ed; [| discriminate].
    apply decimate_Some_length in Ed. simpl Z.of_nat. exact Ed.
  - remember (S n) as m. cbn [frame_loop] in E.
    destruct (decimate A iqBuffer j) as [[i q] |]; [| discriminate].
    cbv zeta in E.
    destruct (store A ch 1 buf (j * 2) q) as [buf1 |]; [| discriminate].
    destruct (store A ch 2 buf1 (j * 2 + 1) q) as [buf2 |]; [| discriminate].
    apply IH in E. lia.
Qed.

(** A callback that returns with the flag clear was given at least
    [SDR_BUFFER_LENGTH] bytes. *)
Lemma sdr_callback_Some_length (iqBuffer : list byte) (len : Z) (st st' : state A) :
  do_exit st = 0 ->
  sdr_callback A iqBuffer len st = Some st' ->
  SDR_BUFFER_LENGTH <= Z.of_nat (List.length iqBuffer).
Proof.
  intros Hx. unfold sdr_callback. rewrite Hx. cbn [Z.eqb negb].
  change (Z.to_nat AUDIO_BUFFER_LENGTH) with (S (Z.to_nat (AUDIO_BUFFER_LENGTH - 1))).
  destruct (frame_loop A iqBuffer (audio_channel st)
              (S (Z.to_nat (AUDIO_BUFFER_LENGTH - 1))) 0 (d_of_int A 0)
              (g_audio_buffer st)) as [r |] eqn:E; [| discriminate].
  intros _. apply frame_loop_Some_length in E.
  rewrite Nat2Z.inj_succ, Z2Nat.id in E by (cbv; discriminate).
  unfold SDR_BUFFER_LENGTH, AUDIO_BUFFER_LENGTH, SDR_SAMPLE_RATIO in *. lia.
Qed.

End OutOfBounds.

(** X1. With the output array at its declared size, the callback leaves an
    array (reads the raw buffer past its end) exactly when the flag is clear
    and the raw buffer holds fewer than [SDR_BUFFER_LENGTH] = 163840 bytes;
    the length argument plays no part. *)
Theorem X1_out_of_bounds_iff_short_buffer (A : arith) (iqBuffer : list byte)
    (len : Z) (st : state A) :
  sized st ->
  (sdr_callback A iqBuffer len st = None <->
   do_exit st = 0 /\ Z.of_nat (List.length iqBuffer) < SDR_BUFFER_LENGTH).
Proof.
  intros Hbuf. split.
  - intros E. destruct (Z.eq_dec (do_exit st) 0) as [Hx | Hx].
    + split; [exact Hx |].
      destruct (Z.lt_ge_cases (Z.of_nat (List.length iqBuffer)) SDR_BUFFER_LENGTH)
        as [Hlt | Hge]; [exact Hlt |].
      destruct (sdr_callback_spec A iqBuffer len st Hx Hge Hbuf) as (buf' & E' & _).
      congruence.
    + rewrite sdr_callback_cancelled in E by exact Hx. discriminate.
  - intros [Hx Hlt].
    destruct (sdr_callback A iqBuffer len st) as [st' |] eqn:E; [| reflexivity].
    apply sdr_callback_Some_length in E; [lia | exact Hx].
Qed.

Lemma X1_witness :
  sized (initial_state ieee 0) /\
  sdr_callback ieee (repeat "000"%byte (Z.to_nat (SDR_BUFFER_LENGTH - 1))) SDR_BUFFER_LENGTH (initial_state ieee 0)
    = None.
Proof.
  split; [apply initial_state_sized |].
  apply (X1_out_of_bounds_iff_short_buffer ieee (repeat "000"%byte (Z.to_nat (SDR_BUFFER_LENGTH - 1)))
           SDR_BUFFER_LENGTH (initial_state ieee 0) (initial_state_sized ieee 0)).
  split; [reflexivity |]. rewrite repeat_length. vm_compute. reflexivity.
Defined.

(** ** Each output frame has its own ten bytes *)

Lemma sum_loop_local (A : arith) (iqBuffer iqBuffer' : list byte) (j : Z) (n : nat) :
  forall (k : Z) (sumI sumQ : dbl A),
    0 <= k ->
    (forall o, k * 2 <= o < (k + Z.of_nat n) * 2 ->
       rd iqBuffer (iq_index j 0 + o) = rd iqBuffer' (iq_index j 0 + o)) ->
    sum_loop A iqBuffer j n k sumI sumQ = sum_loop A iqBuffer' j n k sumI sumQ.
Proof.
  induction n as [| n IH]; intros k sumI sumQ Hk Hsame; [reflexivity |].
  cbn [sum_loop].
  replace (iq_index j k) with (iq_index j 0 + k * 2) by (unfold iq_index; lia).
  replace (iq_index j 0 + k * 2 + 1) with (iq_index j 0 + (k * 2 + 1)) by lia.
  rewrite (Hsame (k * 2)), (Hsame (k * 2 + 1)) by lia.
  destruct (rd iqBuffer' (iq_index j 0 + k * 2)); [| reflexivity].
  destruct (rd iqBuffer' (iq_index j 0 + (k * 2 + 1))); [| reflexivity].
  apply IH; [lia |]. intros o Ho. apply Hsame. lia.
Qed.

(** X2. The pair [(i, q)] of output frame [j] is computed from the ten raw
    bytes at offsets [10 j .. 10 j + 9] and from nothing else: two raw
    buffers that agree there give the same pair, and a callback run on either
    stores the same value in the selected slots of frame [j].  Nothing is
    carried from one frame to the next. *)
Theorem X2_frame_depends_on_its_ten_bytes (A : arith) (iqBuffer iqBuffer' : list byte)
    (len len' : Z) (st st' : state A) (j : Z) :
  (forall o, 0 <= o < SDR_SAMPLE_RATIO * 2 ->
     rd iqBuffer (j * (SDR_SAMPLE_RATIO * 2) + o) =
     rd iqBuffer' (j * (SDR_SAMPLE_RATIO * 2) + o)) ->
  decimate A iqBuffer j = decimate A iqBuffer' j /\
  (do_exit st = 0 -> do_exit st' = 0 ->
   SDR_BUFFER_LENGTH <= Z.of_nat (List.length iqBuffer) ->
   SDR_BUFFER_LENGTH <= Z.of_nat (List.length iqBuffer') ->
   sized st -> sized st' ->
   audio_channel st = audio_channel st' ->
   0 <= j < AUDIO_BUFFER_LENGTH ->
   exists st1 st1',
     sdr_callback A iqBuffer len st = Some st1 /\
     sdr_callback A iqBuffer' len' st' = Some st1' /\
     (selects (audio_channel st) (j * 2) = true ->
      rd (g_audio_buffer st1) (j * 2) = rd (g_audio_buffer st1') (j * 2)) /\
     (selects (audio_channel st) (j * 2 + 1) = true ->
      rd (g_audio_buffer st1) (j * 2 + 1) = rd (g_audio_buffer st1') (j * 2 + 1))).
Proof.
  intros Hsame.
  assert (Ed : decimate A iqBuffer j = decimate A iqBuffer' j).
  { unfold decimate. rewrite (sum_loop_local A iqBuffer iqBuffer'); [reflexivity | lia |].
    intros o Ho. replace (iq_index j 0) with (j * (SDR_SAMPLE_RATIO * 2))
      by (unfold iq_index; lia).
    apply Hsame. unfold SDR_SAMPLE_RATIO in *. simpl Z.of_nat in Ho. lia. }
  split; [exact Ed |].
  intros Hx Hx' Hiq Hiq' Hbuf Hbuf' Hch Hj.
  destruct (sdr_callback_frames A iqBuffer len st Hx Hiq Hbuf)
    as (st1 & E & _ & _ & _ & _ & F).
  destruct (sdr_callback_frames A iqBuffer' len' st' Hx' Hiq' Hbuf')
    as (st1' & E' & _ & _ & _ & _ & F').
  exists st1, st1'. split; [exact E |]. split; [exact E' |].
  destruct (F j Hj) as [F0 F1]. destruct (F' j Hj) as [F0' F1'].
  assert (Eq : q_at A iqBuffer j = q_at A iqBuffer' j) by (unfold q_at; now rewrite Ed).
  rewrite selects_even, selects_odd, <- Hch in *.
  split; intros Hsel.
  - rewrite Hsel in F0, F0'. congruence.
  - rewrite Hsel in F1, F1'. congruence.
Qed.

Lemma X2_witness :
  (forall o, 0 <= o < SDR_SAMPLE_RATIO * 2 ->
     rd (constant_buffer "200"%byte) (3 * (SDR_SAMPLE_RATIO * 2) + o) =
     rd (constant_buffer "200"%byte ++ ["007"%byte]) (3 * (SDR_SAMPLE_RATIO * 2) + o)) /\
  decimate ieee (constant_buffer "200"%byte) 3 =
  decimate ieee (constant_buffer "200"%byte ++ ["007"%byte]) 3.
Proof.
  assert (H : forall o, 0 <= o < SDR_SAMPLE_RATIO * 2 ->
     rd (constant_buffer "200"%byte) (3 * (SDR_SAMPLE_RATIO * 2) + o) =
     rd (constant_buffer "200"%byte ++ ["007"%byte]) (3 * (SDR_SAMPLE_RATIO * 2) + o)).
  { intros o Ho. unfold rd, SDR_SAMPLE_RATIO in *.
    destruct (Z.ltb_spec (3 * (5 * 2) + o) 0); [reflexivity |].
    symmetry. apply nth_error_app1.
    assert (L := constant_buffer_length "200"%byte).
    unfold SDR_BUFFER_LENGTH, AUDIO_BUFFER_LENGTH, SDR_SAMPLE_RATIO in L. lia. }
  split; [exact H |].
  exact (proj1 (X2_frame_depends_on_its_ten_bytes ieee _ _ 0 0
                  (initial_state ieee 0) (initial_state ieee 0) 3 H)).
Defined.

(** ** What one invocation leaves in the buffer and hands to the sink *)

Lemma rd_map_zrange {T : Type} (f : Z -> T) (n : nat) :
  forall from idx,
    rd (map f (zrange from n)) idx =
    if (0 <=? idx) && (idx <? Z.of_nat n) then Some (f (from + idx)) else None.
Proof.
  induction n as [| n IH]; intros from idx.
  - cbn [zrange map]. unfold rd.
    destruct (Z.ltb_spec idx 0) as [Hneg | Hpos].
    + destruct (Z.leb_spec 0 idx); [lia | reflexivity].
    + destruct (Z.ltb_spec idx (Z.of_nat 0)); [lia |].
      rewrite andb_false_r. now destruct (Z.to_nat idx).
  - cbn [zrange map]. unfold rd in *.
    destruct (Z.ltb_spec idx 0) as [Hneg | Hpos].
    + destruct (Z.leb_spec 0 idx); [lia | reflexivity].
    + destruct (Z.leb_spec 0 idx); [| lia]. cbn [andb].
      destruct (Z.eq_dec idx 0) as [-> | Hnz].
      * cbn. now rewrite Z.add_0_r.
      * replace (Z.to_nat idx) with (S (Z.to_nat (idx - 1))) by lia.
        cbn [nth_error]. specialize (IH (from + 1) (idx - 1)).
        destruct (Z.ltb_spec (idx - 1) 0); [lia |].
        rewrite IH.
        destruct (Z.leb_spec 0 (idx - 1)); [| lia]. cbn [andb].
        replace (from + 1 + (idx - 1)) with (from + idx) by lia.
        destruct (Z.ltb_spec (idx - 1) (Z.of_nat n));
          destruct (Z.ltb_spec idx (Z.of_nat (S n))); try reflexivity; lia.
Qed.

(** In mode 0 the array after a call is [interleaved]. *)
Lemma both_mode_buffer (A : arith) (iqBuffer : list byte) (len : Z) (st : state A) :
  audio_channel st = 0 ->
  do_exit st = 0 ->
  SDR_BUFFER_LENGTH <= Z.of_nat (List.length iqBuffer) ->
  sized st ->
  exists st',
    sdr_callback A iqBuffer len st = Some st' /\
    g_audio_buffer st' = interleaved A iqBuffer.
Proof.
  intros Hch Hx Hiq Hbuf.
  destruct (sdr_callback_spec A iqBuffer len st Hx Hiq Hbuf) as (buf' & E & L & R).
  eexists. split; [exact E |]. cbn [g_audio_buffer].
  apply rd_ext. intros idx. unfold interleaved.
  rewrite R, Hch, rd_map_zrange, Z2Nat.id by (cbv; discriminate).
  assert (Hsel : selects 0 idx = true) by reflexivity.
  rewrite Hsel, andb_true_r, Z.add_0_l.
  destruct ((0 <=? idx) && (idx <? AUDIO_BUFFER_LENGTH * AUDIO_CHANNELS)) eqn:Hin;
    [reflexivity |].
  destruct (rd (g_audio_buffer st) idx) as [v |] eqn:Ev; [| reflexivity].
  apply rd_Some_range in Ev. unfold sized in Hbuf.
  apply andb_false_iff in Hin as [H | H]; [apply Z.leb_gt in H | apply Z.ltb_ge in H]; lia.
Qed.

(** X3. In routing mode 0 the output array after an invocation is
    [q 0; q 0; q 1; q 1; ...; q 16383; q 16383] (each frame's decimated Q
    value, converted to [float], in both slots), whatever the array held
    before: it is overwritten in full and nothing of an earlier invocation
    survives. *)
Theorem X3_both_mode_overwrites_everything (A : arith) (iqBuffer : list byte)
    (len : Z) (st : state A) :
  audio_channel st = 0 ->
  do_exit st = 0 ->
  SDR_BUFFER_LENGTH <= Z.of_nat (List.length iqBuffer) ->
  sized st ->
  exists st',
    sdr_callback A iqBuffer len st = Some st' /\
    g_audio_buffer st' = interleaved A iqBuffer /\
    forall (len' : Z) (other : state A),
      audio_channel other = 0 -> do_exit other = 0 -> sized other ->
      exists other',
        sdr_callback A iqBuffer len' other = Some other' /\
        g_audio_buffer other' = g_audio_buffer st'.
Proof.
  intros Hch Hx Hiq Hbuf.
  destruct (both_mode_buffer A iqBuffer len st Hch Hx Hiq Hbuf) as (st' & E & B).
  exists st'. split; [exact E |]. split; [exact B |].
  intros len' other Hch' Hx' Hbuf'.
  destruct (both_mode_buffer A iqBuffer len' other Hch' Hx' Hiq Hbuf') as (other' & E' & B').
  exists other'. split; [exact E' | congruence].
Qed.

Lemma X3_witness :
  audio_channel (initial_state ieee 0) = 0 /\
  do_exit (initial_state ieee 0) = 0 /\
  SDR_BUFFER_LENGTH <= Z.of_nat (List.length (constant_buffer "200"%byte)) /\
  sized (initial_state ieee 0) /\
  exists st',
    sdr_callback ieee (constant_buffer "200"%byte) 0 (initial_state ieee 0) = Some st' /\
    g_audio_buffer st' = interleaved ieee (constant_buffer "200"%byte).
Proof.
  assert (Hiq : SDR_BUFFER_LENGTH <= Z.of_nat (List.length (constant_buffer "200"%byte)))
    by (rewrite constant_buffer_length; lia).
  split; [reflexivity |]. split; [reflexivity |]. split; [exact Hiq |].
  split; [apply initial_state_sized |].
  destruct (X3_both_mode_overwrites_everything ieee (constant_buffer "200"%byte) 0
              (initial_state ieee 0) eq_refl eq_refl Hiq (initial_state_sized ieee 0))
    as (st' & E & B & _).
  exists st'. split; [exact E | exact B].
Defined.

(** X4. A routing value other than 0, 1 and 2 selects no slot: with the
    flag clear and a raw buffer of at least [SDR_BUFFER_LENGTH] bytes the
    callback returns with the output buffer exactly as it was, and still
    writes the meter and hands that unchanged buffer to the sink. *)
Theorem X4_other_routing_values_store_nothing (A : arith) (iqBuffer : list byte)
    (len : Z) (st : state A) :
  audio_channel st <> 0 -> audio_channel st <> 1 -> audio_channel st <> 2 ->
  do_exit st = 0 ->
  SDR_BUFFER_LENGTH <= Z.of_nat (List.length iqBuffer) ->
  sized st ->
  exists st',
    sdr_callback A iqBuffer len st = Some st' /\
    g_audio_buffer st' = g_audio_buffer st /\
    trace st' = trace st ++ emitted A iqBuffer (g_audio_buffer st).
Proof.
  intros H0 H1 H2 Hx Hiq Hbuf.
  destruct (sdr_callback_spec A iqBuffer len st Hx Hiq Hbuf) as (buf' & E & L & R).
  assert (Eb : buf' = g_audio_buffer st).
  { apply rd_ext. intros idx. rewrite R. unfold selects.
    destruct (Z.eqb_spec (audio_channel st) 0); [contradiction |].
    destruct (Z.even idx).
    - destruct (Z.eqb_spec (audio_channel st) 1); [contradiction |].
      now rewrite andb_false_r.
    - destruct (Z.eqb_spec (audio_channel st) 2); [contradiction |].
      now rewrite andb_false_r. }
  subst buf'. eexists. split; [exact E |]. split; reflexivity.
Qed.

Lemma X4_witness :
  audio_channel (initial_state ieee 3) <> 0 /\
  audio_channel (initial_state ieee 3) <> 1 /\
  audio_channel (initial_state ieee 3) <> 2 /\
  do_exit (initial_state ieee 3) = 0 /\
  SDR_BUFFER_LENGTH <= Z.of_nat (List.length (constant_buffer "255"%byte)) /\
  sized (initial_state ieee 3) /\
  exists st',
    sdr_callback ieee (constant_buffer "255"%byte) SDR_BUFFER_LENGTH (initial_state ieee 3)
      = Some st' /\
    g_audio_buffer st' = g_audio_buffer (initial_state ieee 3) /\
    trace st' = trace (initial_state ieee 3)
                ++ emitted ieee (constant_buffer "255"%byte)
                     (g_audio_buffer (initial_state ieee 3)).
Proof.
  assert (Hiq : SDR_BUFFER_LENGTH <= Z.of_nat (List.length (constant_buffer "255"%byte)))
    by (rewrite constant_buffer_length; lia).
  assert (N0 : audio_channel (initial_state ieee 3) <> 0) by (cbn; discriminate).
  assert (N1 : audio_channel (initial_state ieee 3) <> 1) by (cbn; discriminate).
  assert (N2 : audio_channel (initial_state ieee 3) <> 2) by (cbn; discriminate).
  split; [exact N0 |]. split; [exact N1 |]. split; [exact N2 |].
  split; [reflexivity |]. split; [exact Hiq |]. split; [apply initial_state_sized |].
  exact (X4_other_routing_values_store_nothing ieee (constant_buffer "255"%byte)
           SDR_BUFFER_LENGTH (initial_state ieee 3) N0 N1 N2 eq_refl Hiq
           (initial_state_sized ieee 3)).
Defined.

(** X5. An invocation with the flag clear appends two events, in this
    order: the meter line, then one [snd_pcm_writei] of 16384 frames whose
    data is the whole output array as the loop left it, 32768 samples, which
    is 16384 frames of [AUDIO_CHANNELS] samples: the sink is given every
    element of the array and none beyond it. *)
Theorem X5_sink_receives_whole_buffer (A : arith) (iqBuffer : list byte) (len : Z)
    (st : state A) :
  do_exit st = 0 ->
  SDR_BUFFER_LENGTH <= Z.of_nat (List.length iqBuffer) ->
  sized st ->
  exists st' width,
    sdr_callback A iqBuffer len st = Some st' /\
    trace st' = trace st ++
                [EvMeter A width; EvWritei A (g_audio_buffer st') AUDIO_BUFFER_LENGTH] /\
    Z.of_nat (List.length (g_audio_buffer st')) = AUDIO_BUFFER_LENGTH * AUDIO_CHANNELS.
Proof.
  intros Hx Hiq Hbuf.
  destruct (sdr_callback_frames A iqBuffer len st Hx Hiq Hbuf)
    as (st' & E & _ & _ & S' & T & _).
  exists st'. eexists. split; [exact E |]. split; [| exact S'].
  rewrite T. unfold emitted. rewrite firstn_all2; [reflexivity |].
  unfold sized in S'. lia.
Qed.

Lemma X5_witness :
  do_exit (initial_state ieee 1) = 0 /\
  SDR_BUFFER_LENGTH <= Z.of_nat (List.length (constant_buffer "255"%byte)) /\
  sized (initial_state ieee 1) /\
  exists st' width,
    sdr_callback ieee (constant_buffer "255"%byte) SDR_BUFFER_LENGTH (initial_state ieee 1)
      = Some st' /\
    trace st' = trace (initial_state ieee 1) ++
                [EvMeter ieee width; EvWritei ieee (g_audio_buffer st') AUDIO_BUFFER_LENGTH] /\
    Z.of_nat (List.length (g_audio_buffer st')) = AUDIO_BUFFER_LENGTH * AUDIO_CHANNELS.
Proof.
  assert (Hiq : SDR_BUFFER_LENGTH <= Z.of_nat (List.length (constant_buffer "255"%byte)))
    by (rewrite constant_buffer_length; lia).
  split; [reflexivity |]. split; [exact Hiq |]. split; [apply initial_state_sized |].
  exact (X5_sink_receives_whole_buffer ieee (constant_buffer "255"%byte)
           SDR_BUFFER_LENGTH (initial_state ieee 1) eq_refl Hiq
           (initial_state_sized ieee 1)).
Defined.

(** ** Sequences of deliveries and signals *)

Section Runs.

Variable A : arith.

Lemma sink_writes_app (tr tr' : list (event A)) :
  sink_writes (tr ++ tr') = (sink_writes tr + sink_writes tr')%nat.
Proof. unfold sink_writes. now rewrite filter_app, length_app. Qed.

Lemma sink_writes_handler (n : nat) :
  sink_writes (concat (repeat (handler_output A) n)) = O.
Proof.
  induction n as [| n IH]; [reflexivity |].
  cbn [repeat concat]. rewrite sink_writes_app, IH. reflexivity.
Qed.

(** Once the flag is set, deliveries do nothing and signals only repeat the
    handler's two lines. *)
Lemma run_cancelled (os : list occurrence) :
  forall st : state A,
    do_exit st <> 0 ->
    exists st',
      run A os st = Some st' /\
      g_audio_buffer st' = g_audio_buffer st /\
      audio_channel st' = audio_channel st /\
      do_exit st' <> 0 /\
      trace st' = trace st ++ concat (repeat (handler_output A) (caught_count os)).
Proof.
  induction os as [| [iqBuffer len | signum] os IH]; intros st Hx.
  - exists st. cbn. rewrite app_nil_r. auto.
  - cbn [run occur caught_count]. rewrite sdr_callback_cancelled by exact Hx.
    apply IH. exact Hx.
  - cbn [run occur caught_count].
    destruct (IH (sighandler A signum st)) as (st' & E & B & C & X & T);
      [cbn; discriminate |].
    exists st'. split; [exact E |]. split; [exact B |]. split; [exact C |].
    split; [exact X |]. rewrite T. cbn [sighandler trace repeat concat].
    unfold handler_output. now rewrite <- app_assoc.
Qed.

(** What one occurrence keeps. *)
Lemma occur_keeps (o : occurrence) (st st' : state A) :
  sized st ->
  occur A o st = Some st' ->
  sized st' /\
  audio_channel st' = audio_channel st /\
  (do_exit st <> 0 -> do_exit st' <> 0) /\
  (do_exit st' = 0 \/ do_exit st' = 1 \/ do_exit st' = do_exit st) /\
  exists evs, trace st' = trace st ++ evs.
Proof.
  intros Hbuf E. destruct o as [iqBuffer len | signum]; cbn [occur] in E.
  - destruct (Z.eq_dec (do_exit st) 0) as [Hx | Hx].
    + assert (Hiq := sdr_callback_Some_length A iqBuffer len st st' Hx E).
      destruct (sdr_callback_frames A iqBuffer len st Hx Hiq Hbuf)
        as (st1 & E1 & C & X & S1 & T & _).
      rewrite E in E1. injection E1 as <-.
      split; [exact S1 |]. split; [exact C |]. split; [contradiction |].
      split; [now left | eauto].
    + rewrite sdr_callback_cancelled in E by exact Hx. injection E as <-.
      split; [exact Hbuf |]. split; [reflexivity |]. split; [auto |].
      split; [auto |]. exists []. now rewrite app_nil_r.
  - injection E as <-. cbn [sighandler].
    split; [exact Hbuf |]. split; [reflexivity |].
    split; [intros _; cbn; discriminate |]. split; [cbn; auto | cbn; eauto].
Qed.

End Runs.



Lemma run_from_signal (A : arith) (signum : Z) (os : list occurrence) (st : state A) :
  exists st',
    run A (Caught signum :: os) st = Some st' /\
    g_audio_buffer st' = g_audio_buffer st /\
    audio_channel st' = audio_channel st /\
    trace st' = trace st ++ concat (repeat (handler_output A) (S (caught_count os))).
Proof.
  cbn [run occur].
  destruct (run_cancelled A os (sighandler A signum st)) as (st' & E & B & C & _ & T);
    [cbn; discriminate |].
  exists st'. split; [exact E |]. split; [exact B |]. split; [exact C |].
  rewrite T. cbn [sighandler trace repeat concat]. unfold handler_output.
  now rewrite <- app_assoc.
Qed.

(** X7. From the moment [sighandler] has run, nothing that is delivered
    (not even a buffer that is too short) and no further signal makes the
    program read the raw buffer, change the output array, write the meter or
    write to the sink: the run returns, the array is as the handler found it,
    and the trace has grown by the handler's two lines per signal only. *)
Theorem X7_nothing_after_signal (A : arith) (signum : Z) (os : list occurrence)
    (st : state A) :
  exists st',
    run A (Caught signum :: os) st = Some st' /\
    g_audio_buffer st' = g_audio_buffer st /\
    trace st' = trace st ++ concat (repeat (handler_output A) (S (caught_count os))) /\
    sink_writes (trace st') = sink_writes (trace st) /\
    filter is_meter (trace st') = filter is_meter (trace st).
Proof.
  destruct (run_from_signal A signum os st) as (st' & E & B & _ & T').
  exists st'. split; [exact E |]. split; [exact B |]. split; [exact T' |].
  rewrite T'. split.
  - rewrite sink_writes_app, sink_writes_handler. lia.
  - rewrite filter_app.
    assert (N : forall n, filter is_meter (concat (repeat (handler_output A) n)) = []).
    { induction n as [| n IH]; [reflexivity |].
      cbn [repeat concat]. now rewrite filter_app, IH. }
    now rewrite N, app_nil_r.
Qed.

(** X8. While the flag is clear and every delivered buffer holds at least
    [SDR_BUFFER_LENGTH] bytes, the run stays inside its arrays, and the sink
    is written once per buffer delivered before the first signal and never
    for a buffer delivered after it. *)
Theorem X8_one_sink_write_per_delivery (A : arith) (os : list occurrence)
    (st : state A) :
  do_exit st = 0 ->
  sized st ->
  full_buffers os ->
  exists st',
    run A os st = Some st' /\
    sink_writes (trace st') =
      (sink_writes (trace st) + deliveries_before_signal os)%nat.
Proof.
  revert st. induction os as [| [iqBuffer len | signum] os IH]; intros st Hx Hbuf Hfull.
  - exists st. split; [reflexivity |]. cbn. lia.
  - assert (Hiq : SDR_BUFFER_LENGTH <= Z.of_nat (List.length iqBuffer))
      by (apply (Hfull iqBuffer len); now left).
    destruct (sdr_callback_frames A iqBuffer len st Hx Hiq Hbuf)
      as (st1 & E1 & _ & X1 & S1 & T1 & _).
    destruct (IH st1 X1 S1) as (st' & E & W).
    { intros b l Hin. apply (Hfull b l). now right. }
    exists st'. cbn [run occur deliveries_before_signal]. rewrite E1.
    split; [exact E |]. rewrite W, T1, sink_writes_app. unfold emitted. cbn. lia.
  - destruct (run_from_signal A signum os st) as (st' & E & _ & _ & T).
    exists st'. split; [exact E |]. cbn [deliveries_before_signal].
    rewrite T, sink_writes_app, sink_writes_handler. lia.
Qed.

Lemma full_buffers_example :
  full_buffers [Deliver (constant_buffer "200"%byte) SDR_BUFFER_LENGTH;
                Deliver (constant_buffer "010"%byte) SDR_BUFFER_LENGTH;
                Caught 2;
                Deliver (constant_buffer "255"%byte) SDR_BUFFER_LENGTH].
Proof.
  intros b l Hin. cbn [In] in Hin.
  destruct Hin as [E | [E | [E | [E | []]]]]; try discriminate;
    injection E as <- _; rewrite constant_buffer_length; lia.
Qed.

Lemma X8_witness :
  do_exit (initial_state ieee 0) = 0 /\
  sized (initial_state ieee 0) /\
  exists st',
    run ieee [Deliver (constant_buffer "200"%byte) SDR_BUFFER_LENGTH;
              Deliver (constant_buffer "010"%byte) SDR_BUFFER_LENGTH;
              Caught 2;
              Deliver (constant_buffer "255"%byte) SDR_BUFFER_LENGTH]
        (initial_state ieee 0) = Some st' /\
    sink_writes (trace st') = 2%nat.
Proof.
  split; [reflexivity |]. split; [apply initial_state_sized |].
  exact (X8_one_sink_write_per_delivery ieee _ (initial_state ieee 0) eq_refl
           (initial_state_sized ieee 0) full_buffers_example).
Defined.



(** X10. In routing mode 0, while the flag is clear, the output array
    holds what the most recent raw buffer put there and nothing older: after
    a run of full buffers the array is [interleaved] of the last buffer
    delivered before the first signal. *)
Theorem X10_array_holds_last_buffer_only (A : arith) (os : list occurrence)
    (st : state A) (iqBuffer : list byte) :
  audio_channel st = 0 ->
  do_exit st = 0 ->
  sized st ->
  full_buffers os ->
  last_before_signal os = Some iqBuffer ->
  exists st',
    run A os st = Some st' /\
    g_audio_buffer st' = interleaved A iqBuffer.
Proof.
  revert st. induction os as [| [b len | signum] os IH]; intros st Hch Hx Hbuf Hfull Hlast;
    try discriminate.
  cbn [last_before_signal] in Hlast.
  assert (Hb : SDR_BUFFER_LENGTH <= Z.of_nat (List.length b))
    by (apply (Hfull b len); now left).
  assert (Hfull' : full_buffers os).
  { intros b' l' Hin. apply (Hfull b' l'). now right. }
  destruct (sdr_callback_frames A b len st Hx Hb Hbuf)
    as (st1 & E1 & C1 & X1 & S1 & _ & _).
  cbn [run occur]. rewrite E1.
  destruct (last_before_signal os) as [later |] eqn:El.
  - injection Hlast as ->.
    apply IH; [congruence | exact X1 | exact S1 | exact Hfull' | reflexivity].
  - injection Hlast as ->.
    destruct (both_mode_buffer A iqBuffer len st Hch Hx Hb Hbuf) as (st2 & E2 & B).
    rewrite E1 in E2. injection E2 as <-.
    destruct os as [| [b' len' | signum] os'].
    + exists st1. split; [reflexivity | exact B].
    + cbn [last_before_signal] in El.
      destruct (last_before_signal os'); discriminate.
    + destruct (run_from_signal A signum os' st1) as (st' & E & B' & _).
      exists st'. split; [exact E | congruence].
Qed.

Lemma X10_witness :
  audio_channel (initial_state ieee 0) = 0 /\
  do_exit (initial_state ieee 0) = 0 /\
  sized (initial_state ieee 0) /\
  exists st',
    run ieee [Deliver (constant_buffer "200"%byte) SDR_BUFFER_LENGTH;
              Deliver (constant_buffer "010"%byte) SDR_BUFFER_LENGTH;
              Caught 2;
              Deliver (constant_buffer "255"%byte) SDR_BUFFER_LENGTH]
        (initial_state ieee 0) = Some st' /\
    g_audio_buffer st' = interleaved ieee (constant_buffer "010"%byte).
Proof.
  split; [reflexivity |]. split; [reflexivity |]. split; [apply initial_state_sized |].
  exact (X10_array_holds_last_buffer_only ieee _ (initial_state ieee 0)
           (constant_buffer "010"%byte) eq_refl eq_refl (initial_state_sized ieee 0)
           full_buffers_example eq_refl).
Defined.

(** ** Levels in binary64: what the code can store and show *)

Lemma digits2_pos_bound (m : positive) : Zpos m < 2 ^ Zpos (digits2_pos m).
Proof.
  induction m as [m IH | m IH |]; cbn [digits2_pos].
  - rewrite Pos2Z.inj_succ, Z.pow_succ_r by lia. lia.
  - rewrite Pos2Z.inj_succ, Z.pow_succ_r by lia. lia.
  - reflexivity.
Qed.

Lemma valid_mantissa_bound (s : bool) (m : positive) (e : Z) :
  valid_binary (S754_finite s m e) = true -> Zpos m < 2 ^ 53.
Proof.
  cbn [SpecFloat.valid_binary].
  unfold SpecFloat.bounded, SpecFloat.canonical_mantissa, SpecFloat.fexp.
  intros H. apply andb_true_iff in H as [H _]. apply Z.eqb_eq in H.
  assert (D : Zpos (digits2_pos m) <= 53) by (unfold FloatOps.prec in H; lia).
  apply Z.lt_le_trans with (1 := digits2_pos_bound m).
  apply Z.pow_le_mono_r; lia.
Qed.

Lemma SFltb_finite (m m0 : positive) (e e0 : Z) :
  SFltb (S754_finite false m e) (S754_finite false m0 e0) = true ->
  e < e0 \/ (e = e0 /\ Zpos m < Zpos m0).
Proof.
  unfold SFltb. cbn [SFcompare].
  destruct (Z.compare_spec e e0) as [-> | Hlt | Hgt]; [| now left | discriminate].
  destruct (Pos.compare_cont Eq m m0) eqn:Ec; try discriminate.
  intros _. right. split; [reflexivity |]. apply Pos2Z.pos_lt_pos. exact Ec.
Qed.

Lemma Prim2SF_43 : Prim2SF 43 = S754_finite false 6051711999279104 (-47).
Proof. vm_compute. reflexivity. Qed.

Lemma Prim2SF_0 : Prim2SF 0 = S754_zero false.
Proof. vm_compute. reflexivity. Qed.

Lemma to_int_small (x : float) :
  PrimFloat.leb 0 x = true -> PrimFloat.ltb x 43 = true ->
  0 <= IEEE.to_int x <= 42.
Proof.
  rewrite FloatAxioms.leb_spec, FloatAxioms.ltb_spec, Prim2SF_0, Prim2SF_43.
  assert (V := FloatAxioms.Prim2SF_valid x).
  unfold IEEE.to_int.
  destruct (Prim2SF x) as [s | s | | s m e].
  - intros _ _. lia.
  - destruct s; unfold SFleb, SFltb; cbn [SFcompare]; discriminate.
  - unfold SFleb; cbn [SFcompare]; discriminate.
  - destruct s; [unfold SFleb; cbn [SFcompare]; discriminate |]. intros _ H.
    apply valid_mantissa_bound in V. apply SFltb_finite in H.
    assert (P47 : 2 ^ 47 = 140737488355328) by reflexivity.
    assert (P53 : 2 ^ 53 = 9007199254740992) by reflexivity.
    rewrite P53 in V.
    assert (He : e < 0) by lia.
    destruct (Z.leb_spec 0 e); [lia |].
    rewrite Z.shiftr_div_pow2 by lia.
    assert (Q : 0 <= Zpos m / 2 ^ (- e) <= 42).
    { assert (Hp : 0 < 2 ^ (- e)) by (apply Z.pow_pos_nonneg; lia).
      split; [apply Z.div_pos; lia |].
      apply Z.lt_succ_r. apply Z.div_lt_upper_bound; [exact Hp |].
      destruct H as [Hlt | [-> Hm]].
      - assert (P : 2 ^ 48 <= 2 ^ (- e)) by (apply Z.pow_le_mono_r; lia).
        assert (P48 : 2 ^ 48 = 281474976710656) by reflexivity.
        rewrite P48 in P. lia.
      - change (- -47) with 47. rewrite P47. lia. }
    set (v := Zpos m / 2 ^ (- e)) in *. cbv zeta.
    assert (HI : INT_MIN = -2147483648) by reflexivity.
    assert (P31 : 2 ^ 31 = 2147483648) by reflexivity.
    rewrite HI, P31.
    destruct (Z.leb_spec (-2147483648) v); [| lia].
    destruct (Z.ltb_spec v 2147483648); [| lia].
    cbn [andb]. lia.
Qed.

Lemma ieee_sum5_in_table (v0 v1 v2 v3 v4 : Z) :
  0 <= v0 <= 255 -> 0 <= v1 <= 255 -> 0 <= v2 <= 255 ->
  0 <= v3 <= 255 -> 0 <= v4 <= 255 ->
  Table.mem (sum_of ieee (map (amplitude ieee) [v0; v1; v2; v3; v4])) Table.sums5 = true.
Proof.
  intros H0 H1 H2 H3 H4.
  unfold sum_of. cbn [map fold_left].
  assert (M0 : Table.mem (d_of_int ieee 0) Table.sums0 = true) by reflexivity.
  assert (M1 := closed_under_add_sound _ _ sums_closed_1 _ _ M0 (amplitude_in_table v0 H0)).
  assert (M2 := closed_under_add_sound _ _ sums_closed_2 _ _ M1 (amplitude_in_table v1 H1)).
  assert (M3 := closed_under_add_sound _ _ sums_closed_3 _ _ M2 (amplitude_in_table v2 H2)).
  assert (M4 := closed_under_add_sound _ _ sums_closed_4 _ _ M3 (amplitude_in_table v3 H3)).
  exact (closed_under_add_sound _ _ sums_closed_5 _ _ M4 (amplitude_in_table v4 H4)).
Qed.

Lemma ieee_mean5_is_quotient (v0 v1 v2 v3 v4 : Z) :
  0 <= v0 <= 255 -> 0 <= v1 <= 255 -> 0 <= v2 <= 255 ->
  0 <= v3 <= 255 -> 0 <= v4 <= 255 ->
  In (mean_of ieee (map (amplitude ieee) [v0; v1; v2; v3; v4])) Levels.quotients.
Proof.
  intros H0 H1 H2 H3 H4. unfold mean_of, Levels.quotients.
  apply (in_map (fun s => d_div ieee s (d_of_int ieee SDR_SAMPLE_RATIO))).
  apply mem_sound. now apply ieee_sum5_in_table.
Qed.

Lemma ieee_decimated_Q_is_quotient (iqBuffer : list byte) (j : Z) :
  In (decimated_Q_spec ieee iqBuffer SDR_SAMPLE_RATIO j) Levels.quotients.
Proof.
  unfold decimated_Q_spec.
  change (zrange 0 (Z.to_nat SDR_SAMPLE_RATIO)) with [0; 1; 2; 3; 4].
  cbn [map]. unfold raw.
  apply (ieee_mean5_is_quotient _ _ _ _ _); apply uchar_range.
Qed.

Lemma ieee_decimated_I_is_quotient (iqBuffer : list byte) (j : Z) :
  In (decimated_I_spec ieee iqBuffer SDR_SAMPLE_RATIO j) Levels.quotients.
Proof.
  unfold decimated_I_spec.
  change (zrange 0 (Z.to_nat SDR_SAMPLE_RATIO)) with [0; 1; 2; 3; 4].
  cbn [map]. unfold raw.
  apply (ieee_mean5_is_quotient _ _ _ _ _); apply uchar_range.
Qed.

Lemma quotients_not_zero :
  forallb (fun x => PrimFloat.leb Levels.least_level (PrimFloat.abs (d_to_flt ieee x)))
          Levels.quotients = true.
Proof. vm_compute. reflexivity. Qed.

Lemma least_level_positive : PrimFloat.ltb 0 Levels.least_level = true.
Proof. vm_compute. reflexivity. Qed.

Lemma squares_closed :
  forallb (fun x => Table.mem (d_mul ieee x x) Levels.squares) Levels.quotients = true.
Proof. vm_compute. reflexivity. Qed.

Lemma SFadd_comm (x y : spec_float) :
  SFadd FloatOps.prec FloatOps.emax x y = SFadd FloatOps.prec FloatOps.emax y x.
Proof.
  destruct x as [sx | sx | | sx mx ex], y as [sy | sy | | sy my ey];
    try destruct sx; try destruct sy; try reflexivity;
    cbn [SFadd]; cbv zeta; rewrite (Z.min_comm ex ey); f_equal; apply Z.add_comm.
Qed.

Lemma float_add_comm (x y : float) : PrimFloat.add x y = PrimFloat.add y x.
Proof.
  apply FloatAxioms.Prim2SF_inj. rewrite !FloatAxioms.add_spec. apply SFadd_comm.
Qed.

Lemma pairs_ok_sound (l : list float) :
  Levels.pairs_ok l = true ->
  forall x y, In x l -> In y l ->
    Levels.magnitude_ok (d_sqrt ieee (d_add ieee x y)) = true.
Proof.
  induction l as [| x0 t IH]; intros H x y Hx Hy; [contradiction |].
  cbn [Levels.pairs_ok] in H. apply andb_true_iff in H as [H0 Ht].
  rewrite forallb_forall in H0.
  destruct Hx as [<- | Hx].
  - now apply H0.
  - destruct Hy as [<- | Hy].
    + cbn [d_add ieee]. rewrite float_add_comm. apply (H0 x). now right.
    + now apply IH.
Qed.

Lemma squares_pairs_ok : Levels.pairs_ok (Table.elements Levels.squares) = true.
Proof. vm_cast_no_check (@eq_refl bool true). Qed.

Lemma ieee_magnitude_ok (i q : float) :
  In i Levels.quotients -> In q Levels.quotients ->
  Levels.magnitude_ok (magnitude ieee i q) = true.
Proof.
  intros Hi Hq. unfold magnitude.
  assert (C := squares_closed). rewrite forallb_forall in C.
  exact (pairs_ok_sound _ squares_pairs_ok _ _
           (mem_sound _ _ (C i Hi)) (mem_sound _ _ (C q Hq))).
Qed.

Lemma constant_mean_rounds (b : byte) :
  d_to_flt ieee (constant_mean ieee b) = d_to_flt ieee (amplitude ieee (uchar b)).
Proof. destruct b; vm_compute; reflexivity. Qed.

(** X11. The stored value is never zero: the mean of five amplitudes
    [(v - 127.5) / 127.5] has an odd numerator, and in the code's binary64
    and binary32 arithmetic every value stored for a frame is at least
    [least_level] (one fifth of the amplitude of byte 128, as a [float], which
    is above 0) in absolute value.  No raw buffer gives digital silence. *)
Theorem X11_stored_value_never_zero (iqBuffer : list byte) (len : Z)
    (st : state ieee) (j : Z) :
  do_exit st = 0 ->
  SDR_BUFFER_LENGTH <= Z.of_nat (List.length iqBuffer) ->
  sized st ->
  0 <= j < AUDIO_BUFFER_LENGTH ->
  exists st' v,
    sdr_callback ieee iqBuffer len st = Some st' /\
    PrimFloat.ltb 0 Levels.least_level = true /\
    PrimFloat.leb Levels.least_level (PrimFloat.abs v) = true /\
    (selects (audio_channel st) (j * 2) = true ->
     rd (g_audio_buffer st') (j * 2) = Some v) /\
    (selects (audio_channel st) (j * 2 + 1) = true ->
     rd (g_audio_buffer st') (j * 2 + 1) = Some v).
Proof.
  intros Hx Hiq Hbuf Hj.
  destruct (sdr_callback_frames ieee iqBuffer len st Hx Hiq Hbuf)
    as (st' & E & _ & _ & _ & _ & F).
  exists st', (d_to_flt ieee (decimated_Q_spec ieee iqBuffer SDR_SAMPLE_RATIO j)).
  split; [exact E |]. split; [exact least_level_positive |]. split.
  - assert (N := quotients_not_zero). rewrite forallb_forall in N.
    exact (N _ (ieee_decimated_Q_is_quotient iqBuffer j)).
  - assert (Eq : q_at ieee iqBuffer j = decimated_Q_spec ieee iqBuffer SDR_SAMPLE_RATIO j).
    { unfold q_at. rewrite decimate_in_frame; [reflexivity | exact Hiq | exact Hj]. }
    destruct (F j Hj) as [F0 F1]. rewrite Eq in F0, F1.
    rewrite selects_even, selects_odd.
    split; intros Hsel; [rewrite Hsel in F0; exact F0 | rewrite Hsel in F1; exact F1].
Qed.

Lemma X11_witness :
  do_exit (initial_state ieee 0) = 0 /\
  SDR_BUFFER_LENGTH <= Z.of_nat (List.length (constant_buffer "128"%byte)) /\
  sized (initial_state ieee 0) /\
  0 <= 9 < AUDIO_BUFFER_LENGTH /\
  exists st' v,
    sdr_callback ieee (constant_buffer "128"%byte) SDR_BUFFER_LENGTH (initial_state ieee 0)
      = Some st' /\
    PrimFloat.ltb 0 Levels.least_level = true /\
    PrimFloat.leb Levels.least_level (PrimFloat.abs v) = true /\
    (selects (audio_channel (initial_state ieee 0)) (9 * 2) = true ->
     rd (g_audio_buffer st') (9 * 2) = Some v) /\
    (selects (audio_channel (initial_state ieee 0)) (9 * 2 + 1) = true ->
     rd (g_audio_buffer st') (9 * 2 + 1) = Some v).
Proof.
  assert (Hiq : SDR_BUFFER_LENGTH <= Z.of_nat (List.length (constant_buffer "128"%byte)))
    by (rewrite constant_buffer_length; lia).
  assert (Hj : 0 <= 9 < AUDIO_BUFFER_LENGTH) by (unfold AUDIO_BUFFER_LENGTH; lia).
  split; [reflexivity |]. split; [exact Hiq |]. split; [apply initial_state_sized |].
  split; [exact Hj |].
  exact (X11_stored_value_never_zero (constant_buffer "128"%byte) SDR_BUFFER_LENGTH
           (initial_state ieee 0) 9 eq_refl Hiq (initial_state_sized ieee 0) Hj).
Defined.

(** X12. A frame whose five Q bytes are all [b] stores exactly the
    amplitude of [b], [(float)((b - 127.5) / 127.5)], in its selected slots:
    in binary64 the sum of five equal amplitudes divided by 5 can differ from
    the amplitude in the last place, and the conversion to [float] removes
    the difference for every one of the 256 byte values. *)
Theorem X12_constant_frame_stores_amplitude (iqBuffer : list byte) (len : Z)
    (st : state ieee) (j : Z) (b : byte) :
  (forall k, 0 <= k < SDR_SAMPLE_RATIO -> rd iqBuffer (iq_index j k + 1) = Some b) ->
  do_exit st = 0 ->
  SDR_BUFFER_LENGTH <= Z.of_nat (List.length iqBuffer) ->
  sized st ->
  0 <= j < AUDIO_BUFFER_LENGTH ->
  exists st',
    sdr_callback ieee iqBuffer len st = Some st' /\
    (selects (audio_channel st) (j * 2) = true ->
     rd (g_audio_buffer st') (j * 2) = Some (d_to_flt ieee (amplitude ieee (uchar b)))) /\
    (selects (audio_channel st) (j * 2 + 1) = true ->
     rd (g_audio_buffer st') (j * 2 + 1) = Some (d_to_flt ieee (amplitude ieee (uchar b)))).
Proof.
  intros Hall Hx Hiq Hbuf Hj.
  destruct (sdr_callback_frames ieee iqBuffer len st Hx Hiq Hbuf)
    as (st' & E & _ & _ & _ & _ & F).
  exists st'. split; [exact E |].
  assert (Eq : q_at ieee iqBuffer j = constant_mean ieee b).
  { unfold q_at. rewrite decimate_in_frame; [| exact Hiq | exact Hj].
    unfold decimated_Q_spec, constant_mean. f_equal. apply map_ext_in.
    intros k Hin. apply zrange_In in Hin. simpl Z.of_nat in Hin.
    f_equal. unfold raw. f_equal.
    apply (rd_nth iqBuffer (j * SDR_SAMPLE_RATIO * 2 + k * 2 + 1) b).
    apply (Hall k). unfold SDR_SAMPLE_RATIO. lia. }
  destruct (F j Hj) as [F0 F1]. rewrite Eq, constant_mean_rounds in F0, F1.
  rewrite selects_even, selects_odd.
  split; intros Hsel; [rewrite Hsel in F0; exact F0 | rewrite Hsel in F1; exact F1].
Qed.

Lemma X12_witness :
  (forall k, 0 <= k < SDR_SAMPLE_RATIO ->
     rd (constant_buffer "002"%byte) (iq_index 4 k + 1) = Some "002"%byte) /\
  exists st',
    sdr_callback ieee (constant_buffer "002"%byte) SDR_BUFFER_LENGTH (initial_state ieee 0)
      = Some st' /\
    (selects (audio_channel (initial_state ieee 0)) (4 * 2) = true ->
     rd (g_audio_buffer st') (4 * 2)
     = Some (d_to_flt ieee (amplitude ieee (uchar "002"%byte)))).
Proof.
  assert (Hall : forall k, 0 <= k < SDR_SAMPLE_RATIO ->
            rd (constant_buffer "002"%byte) (iq_index 4 k + 1) = Some "002"%byte).
  { intros k Hk. unfold rd, iq_index, constant_buffer, SDR_SAMPLE_RATIO in *.
    destruct (Z.ltb_spec (4 * 5 * 2 + k * 2 + 1) 0); [lia |].
    apply nth_error_repeat.
    unfold SDR_BUFFER_LENGTH, AUDIO_BUFFER_LENGTH, SDR_SAMPLE_RATIO. lia. }
  assert (Hiq : SDR_BUFFER_LENGTH <= Z.of_nat (List.length (constant_buffer "002"%byte)))
    by (rewrite constant_buffer_length; lia).
  assert (Hj : 0 <= 4 < AUDIO_BUFFER_LENGTH) by (unfold AUDIO_BUFFER_LENGTH; lia).
  split; [exact Hall |].
  destruct (X12_constant_frame_stores_amplitude (constant_buffer "002"%byte)
              SDR_BUFFER_LENGTH (initial_state ieee 0) 4 "002"%byte Hall eq_refl Hiq
              (initial_state_sized ieee 0) Hj) as (st' & E & S0 & _).
  exists st'. split; [exact E | exact S0].
Defined.

(** X13. In the code's binary64 arithmetic the envelope magnitude
    [sqrt (i*i + q*q)] of every output frame lies in [(0, sqrt 2]]: it is
    never 0, and it exceeds 1 for strong signals (it is [sqrt 2] when every
    byte is 0 or 255). *)
Theorem X13_envelope_range (iqBuffer : list byte) (j : Z) :
  SDR_BUFFER_LENGTH <= Z.of_nat (List.length iqBuffer) ->
  0 <= j < AUDIO_BUFFER_LENGTH ->
  exists i q,
    decimate ieee iqBuffer j = Some (i, q) /\
    PrimFloat.ltb 0 (d_sqrt ieee (i * i + q * q)%dbl) = true /\
    PrimFloat.leb (d_sqrt ieee (i * i + q * q)%dbl) (PrimFloat.sqrt 2) = true.
Proof.
  intros Hiq Hj.
  exists (decimated_I_spec ieee iqBuffer SDR_SAMPLE_RATIO j),
         (decimated_Q_spec ieee iqBuffer SDR_SAMPLE_RATIO j).
  split; [apply decimate_in_frame; assumption |].
  assert (M := ieee_magnitude_ok _ _ (ieee_decimated_I_is_quotient iqBuffer j)
                 (ieee_decimated_Q_is_quotient iqBuffer j)).
  unfold Levels.magnitude_ok, magnitude in M.
  apply andb_true_iff in M as [M _]. apply andb_true_iff in M as [M _].
  apply andb_true_iff in M as [M1 M2]. split; assumption.
Qed.

Lemma X13_witness :
  SDR_BUFFER_LENGTH <= Z.of_nat (List.length (constant_buffer "255"%byte)) /\
  0 <= 0 < AUDIO_BUFFER_LENGTH /\
  exists i q,
    decimate ieee (constant_buffer "255"%byte) 0 = Some (i, q) /\
    PrimFloat.ltb 0 (d_sqrt ieee (i * i + q * q)%dbl) = true /\
    PrimFloat.leb (d_sqrt ieee (i * i + q * q)%dbl) (PrimFloat.sqrt 2) = true.
Proof.
  assert (Hiq : SDR_BUFFER_LENGTH <= Z.of_nat (List.length (constant_buffer "255"%byte)))
    by (rewrite constant_buffer_length; lia).
  assert (Hj : 0 <= 0 < AUDIO_BUFFER_LENGTH) by (unfold AUDIO_BUFFER_LENGTH; lia).
  split; [exact Hiq |]. split; [exact Hj |].
  exact (X13_envelope_range (constant_buffer "255"%byte) 0 Hiq Hj).
Defined.

(** X14. The conversion [(int)(maxA * 30)] is always defined and the meter
    is never wider than 42: in the code's binary64 arithmetic, for every raw
    buffer, the width the callback passes to [fprintf] lies in [[0, 42]]. *)
Theorem X14_meter_width_at_most_42 (iqBuffer : list byte) (len : Z) (st : state ieee) :
  do_exit st = 0 ->
  SDR_BUFFER_LENGTH <= Z.of_nat (List.length iqBuffer) ->
  sized st ->
  exists st' width frames,
    sdr_callback ieee iqBuffer len st = Some st' /\
    trace st' = trace st ++ [EvMeter ieee width; EvWritei ieee frames AUDIO_BUFFER_LENGTH] /\
    0 <= width <= 42.
Proof.
  intros Hx Hiq Hbuf.
  destruct (sdr_callback_frames ieee iqBuffer len st Hx Hiq Hbuf)
    as (st' & E & _ & _ & _ & T & _).
  exists st'. do 2 eexists. split; [exact E |]. split; [exact T |].
  cbn [d_to_int ieee].
  destruct (peak_from_attained ieee iqBuffer (zrange 0 (Z.to_nat AUDIO_BUFFER_LENGTH))
              (d_of_int ieee 0)) as [E0 | (j & Hin & Ej)].
  - rewrite peak_unfold, E0. vm_compute. split; discriminate.
  - rewrite peak_unfold, Ej.
    apply zrange_In in Hin. rewrite Z2Nat.id in Hin by (cbv; discriminate).
    assert (Hj : 0 <= j < AUDIO_BUFFER_LENGTH) by lia.
    unfold a_at. rewrite decimate_in_frame by assumption.
    assert (M := ieee_magnitude_ok _ _ (ieee_decimated_I_is_quotient iqBuffer j)
                   (ieee_decimated_Q_is_quotient iqBuffer j)).
    unfold Levels.magnitude_ok in M.
    apply andb_true_iff in M as [M M4]. apply andb_true_iff in M as [_ M3].
    apply to_int_small; assumption.
Qed.

Lemma X14_witness :
  do_exit (initial_state ieee 0) = 0 /\
  SDR_BUFFER_LENGTH <= Z.of_nat (List.length (constant_buffer "000"%byte)) /\
  sized (initial_state ieee 0) /\
  exists st' width frames,
    sdr_callback ieee (constant_buffer "000"%byte) SDR_BUFFER_LENGTH (initial_state ieee 0)
      = Some st' /\
    trace st' = trace (initial_state ieee 0)
                ++ [EvMeter ieee width; EvWritei ieee frames AUDIO_BUFFER_LENGTH] /\
    0 <= width <= 42.
Proof.
  assert (Hiq : SDR_BUFFER_LENGTH <= Z.of_nat (List.length (constant_buffer "000"%byte)))
    by (rewrite constant_buffer_length; lia).
  split; [reflexivity |]. split; [exact Hiq |]. split; [apply initial_state_sized |].
  exact (X14_meter_width_at_most_42 (constant_buffer "000"%byte) SDR_BUFFER_LENGTH
           (initial_state ieee 0) eq_refl Hiq (initial_state_sized ieee 0)).
Defined.

(** ** [main] *)

Section Main.

Variable A : arith.
Variable env : environment A.

Lemma chosen_cons {T : Type} (c : ascii) (opt : ascii) (optarg : string)
    (opts : list (ascii * string)) (read : string -> T) (default : T) :
  chosen c ((opt, optarg) :: opts) read default =
  chosen c opts read (if Ascii.eqb opt c then read optarg else default).
Proof.
  unfold chosen, last_argument. cbn [fold_left fst snd].
  assert (F : forall acc : option string,
            fold_left (fun acc o => if Ascii.eqb (fst o) c then Some (snd o) else acc)
              opts acc =
            match fold_left (fun acc o => if Ascii.eqb (fst o) c then Some (snd o) else acc)
                    opts None with
            | Some s => Some s
            | None => acc
            end).
  { induction opts as [| o opts IH]; intros acc; cbn [fold_left]; [reflexivity |].
    rewrite IH. rewrite (IH (if Ascii.eqb (fst o) c then Some (snd o) else None)).
    destruct (fold_left _ opts None); [reflexivity |].
    destruct (Ascii.eqb (fst o) c); reflexivity. }
  rewrite F.
  destruct (fold_left _ opts None); [reflexivity |].
  destruct (Ascii.eqb opt c); reflexivity.
Qed.

Lemma known_cases (opt : ascii) :
  known opt = true ->
  opt = "d"%char \/ opt = "f"%char \/ opt = "g"%char \/ opt = "p"%char \/ opt = "c"%char.
Proof.
  unfold known. rewrite !orb_true_iff, !Ascii.eqb_eq. tauto.
Qed.

(** The option loop, when every option is one of the [switch]: the last
    occurrence of each option decides, and each [-d] has made its search. *)
Lemma parse_options_known (opts : list (ascii * string)) :
  forallb (fun o => known (fst o)) opts = true ->
  forall (ls : locals) (st : state A) (cs : list call),
    parse_options env opts ls st cs =
    Parsed (parsed_locals env opts ls) (parsed_state env opts st)
           (cs ++ map VerboseDeviceSearch (arguments "d"%char opts)).
Proof.
  induction opts as [| [opt optarg] opts IH]; intros K ls st cs.
  - cbn. rewrite app_nil_r. destruct ls, st. reflexivity.
  - cbn [forallb fst] in K. apply andb_true_iff in K as [K0 K].
    unfold parsed_locals, parsed_state. rewrite !chosen_cons.
    destruct (known_cases opt K0) as [-> | [-> | [-> | [-> | ->]]]];
      cbn [parse_options arguments Ascii.eqb Bool.eqb map];
      rewrite (IH K); unfold parsed_locals, parsed_state;
      cbn [sdr_dev_index sdr_dev_given sdr_gain sdr_ppm_error sdr_frequency
           audio_channel set_audio_channel g_audio_buffer do_exit trace];
      rewrite <- ?app_assoc; reflexivity.
Qed.

(** The option loop up to an option that is not one of the [switch]:
    [usage] ends the process there. *)
Lemma parse_options_unknown (pre rest : list (ascii * string)) (opt : ascii)
    (optarg : string) :
  forallb (fun o => known (fst o)) pre = true ->
  known opt = false ->
  forall (ls : locals) (st : state A) (cs : list call),
    parse_options env (pre ++ (opt, optarg) :: rest) ls st cs =
    UsageExit (parsed_state env pre st)
              (cs ++ map VerboseDeviceSearch (arguments "d"%char pre) ++ [Usage]).
Proof.
  intros K U. induction pre as [| [o a] pre IH]; intros ls st cs.
  - cbn [app parse_options]. unfold known in U.
    rewrite !orb_false_iff in U. destruct U as [[[[U1 U2] U3] U4] U5].
    rewrite U1, U2, U3, U4, U5. cbn. destruct st. reflexivity.
  - cbn [forallb fst] in K. apply andb_true_iff in K as [K0 K].
    unfold parsed_state. rewrite chosen_cons.
    destruct (known_cases o K0) as [-> | [-> | [-> | [-> | ->]]]];
      cbn [app parse_options arguments Ascii.eqb Bool.eqb map];
      rewrite (IH K); unfold parsed_state;
      cbn [audio_channel set_audio_channel g_audio_buffer do_exit trace];
      rewrite <- ?app_assoc; reflexivity.
Qed.


Lemma parsed_trace (opts : list (ascii * string)) (st : state A) :
  trace (parsed_state env opts st) = trace st /\
  g_audio_buffer (parsed_state env opts st) = g_audio_buffer st /\
  do_exit (parsed_state env opts st) = do_exit st /\
  audio_channel (parsed_state env opts st) = chosen "c"%char opts (atoi env) (audio_channel st).
Proof. repeat split. Qed.

Lemma parsed_index (opts : list (ascii * string)) :
  (if sdr_dev_given (parsed_locals env opts initial_locals) =? 0
   then verbose_device_search env "0"%string
   else sdr_dev_index (parsed_locals env opts initial_locals)) = device_index env opts /\
  (forall cs : list call,
     (if sdr_dev_given (parsed_locals env opts initial_locals) =? 0
      then cs ++ [VerboseDeviceSearch "0"%string] else cs) = cs ++ default_search opts).
Proof.
  unfold parsed_locals, device_index, default_search, chosen.
  cbn [sdr_dev_given sdr_dev_index initial_locals].
  destruct (last_argument "d"%char opts); cbn [Z.eqb]; split; try reflexivity.
  intros cs. now rewrite app_nil_r.
Qed.

(** [main] in closed form, when every option is one of the [switch]. *)
Lemma main_known (opts : list (ascii * string)) :
  forallb (fun o => known (fst o)) opts = true ->
  main env opts =
  let st := parsed_state env opts (initial_state A 0) in
  let cs := signal_setup ++ map VerboseDeviceSearch (arguments "d"%char opts) in
  if snd_pcm_open env <? 0
  then Some ((cs ++ [SndPcmOpen AUDIO_DEVICE]) ++ [ErrOpenAudio (snd_pcm_open env)],
             st, EXIT_FAILURE)
  else if snd_pcm_set_params env <? 0
  then Some (sink_setup opts ++ [ErrAudioParams (snd_pcm_set_params env)], st, EXIT_FAILURE)
  else if device_index env opts <? 0
  then Some (sink_setup opts ++ default_search opts, st, 1)
  else if rtlsdr_open env (device_index env opts) <? 0
  then Some (sink_setup opts ++ default_search opts
             ++ [RtlsdrOpen (device_index env opts); ErrOpenSdr (device_index env opts)],
             st, 1)
  else match run A (deliveries env) st with
       | None => None
       | Some st' =>
           Some (sink_setup opts ++ default_search opts ++ radio_setup env opts,
                 fst (main_exit A (rtlsdr_read_async env) st'),
                 snd (main_exit A (rtlsdr_read_async env) st'))
       end.
Proof.
  intros K. unfold main. rewrite (parse_options_known opts K). cbv zeta.
  fold signal_setup.
  destruct (parsed_index opts) as [Ei Ec]. rewrite Ei, !Ec.
  unfold sink_setup, radio_setup, parsed_locals.
  cbn [sdr_gain sdr_ppm_error sdr_frequency initial_locals]. cbv zeta.
  destruct (snd_pcm_open env <? 0); [reflexivity |].
  destruct (snd_pcm_set_params env <? 0); [rewrite <- ?app_assoc; reflexivity |].
  destruct (device_index env opts <? 0); [rewrite <- ?app_assoc; reflexivity |].
  destruct (rtlsdr_open env (device_index env opts) <? 0);
    [rewrite <- ?app_assoc; reflexivity |].
  destruct (run A (deliveries env) (parsed_state env opts (initial_state A 0)))
    as [st' |]; [| reflexivity].
  destruct (main_exit A (rtlsdr_read_async env) st') as [st'' status]. cbn [fst snd].
  destruct (chosen "g"%char opts _ 0 =? 0); rewrite <- ?app_assoc; reflexivity.
Qed.

Lemma known_or_not (opts : list (ascii * string)) :
  forallb (fun o => known (fst o)) opts = true \/
  exists pre opt optarg rest,
    opts = pre ++ (opt, optarg) :: rest /\
    forallb (fun o => known (fst o)) pre = true /\ known opt = false.
Proof.
  induction opts as [| [opt optarg] opts IH]; [now left |].
  destruct (known opt) eqn:K.
  - destruct IH as [IH | (pre & o & a & rest & -> & Kp & U)].
    + left. cbn [forallb fst]. now rewrite K, IH.
    + right. exists ((opt, optarg) :: pre), o, a, rest.
      split; [reflexivity |]. split; [| exact U]. cbn [forallb fst]. now rewrite K, Kp.
  - right. exists [], opt, optarg, opts. auto.
Qed.

Lemma main_unknown (pre rest : list (ascii * string)) (opt : ascii) (optarg : string) :
  forallb (fun o => known (fst o)) pre = true ->
  known opt = false ->
  main env (pre ++ (opt, optarg) :: rest) =
  Some (signal_setup ++ map VerboseDeviceSearch (arguments "d"%char pre) ++ [Usage],
        parsed_state env pre (initial_state A 0), 1).
Proof.
  intros K U. unfold main. rewrite (parse_options_unknown pre rest opt optarg K U).
  reflexivity.
Qed.

End Main.

Lemma searches_are_not_radio (l : list string) :
  forallb (fun c => negb (touches_radio c)) (map VerboseDeviceSearch l) = true /\
  forallb (fun c => negb (is_read_async c)) (map VerboseDeviceSearch l) = true.
Proof. induction l as [| s l [IH1 IH2]]; cbn; auto. Qed.

Lemma default_search_is_not_radio (opts : list (ascii * string)) :
  forallb (fun c => negb (is_read_async c)) (default_search opts) = true.
Proof. unfold default_search. now destruct (last_argument "d"%char opts). Qed.







(** *** A run of [main] that streams *)

Section Streaming.

Variable A : arith.

(** A run of full buffers, started with the flag clear. *)
Lemma run_full (os : list occurrence) :
  forall st : state A,
    do_exit st = 0 -> sized st -> full_buffers os ->
    exists st',
      run A os st = Some st' /\
      audio_channel st' = audio_channel st /\
      sink_writes (trace st') = (sink_writes (trace st) + deliveries_before_signal os)%nat.
Proof.
  induction os as [| [iqBuffer len | signum] os IH]; intros st Hx Hbuf Hfull.
  - exists st. split; [reflexivity |]. split; [reflexivity |]. cbn. lia.
  - assert (Hiq : SDR_BUFFER_LENGTH <= Z.of_nat (List.length iqBuffer))
      by (apply (Hfull iqBuffer len); now left).
    destruct (sdr_callback_frames A iqBuffer len st Hx Hiq Hbuf)
      as (st1 & E1 & C1 & X1 & S1 & T1 & _).
    destruct (IH st1 X1 S1) as (st' & E & C & W).
    { intros b l Hin. apply (Hfull b l). now right. }
    exists st'. cbn [run occur deliveries_before_signal]. rewrite E1.
    split; [exact E |]. split; [congruence |].
    rewrite W, T1, sink_writes_app. unfold emitted. cbn. lia.
  - destruct (run_from_signal A signum os st) as (st' & E & _ & C & T).
    exists st'. split; [exact E |]. split; [exact C |].
    cbn [deliveries_before_signal]. rewrite T, sink_writes_app, sink_writes_handler. lia.
Qed.

(** With a routing value that selects no slot, a run never changes the
    array, and every buffer it hands to the sink is that array. *)
Lemma run_other_channel (os : list occurrence) :
  forall st st' : state A,
    audio_channel st <> 0 -> audio_channel st <> 1 -> audio_channel st <> 2 ->
    sized st ->
    run A os st = Some st' ->
    audio_channel st' = audio_channel st /\
    forall frames n,
      In (EvWritei A frames n) (trace st') ->
      In (EvWritei A frames n) (trace st) \/ frames = g_audio_buffer st.
Proof.
  induction os as [| o os IH]; intros st st' H0 H1 H2 Hbuf E.
  - injection E as <-. split; [reflexivity |]. intros frames n Hin. now left.
  - cbn [run] in E. destruct (occur A o st) as [st1 |] eqn:E1; [| discriminate].
    assert (Step : audio_channel st1 = audio_channel st /\
                   g_audio_buffer st1 = g_audio_buffer st /\
                   forall frames n,
                     In (EvWritei A frames n) (trace st1) ->
                     In (EvWritei A frames n) (trace st) \/ frames = g_audio_buffer st).
    { destruct o as [iqBuffer len | signum]; cbn [occur] in E1.
      - destruct (Z.eq_dec (do_exit st) 0) as [Hx | Hx].
        + assert (Hiq := sdr_callback_Some_length A iqBuffer len st st1 Hx E1).
          destruct (sdr_callback_spec A iqBuffer len st Hx Hiq Hbuf) as (buf' & E' & L & R).
          assert (Eb : buf' = g_audio_buffer st).
          { apply rd_ext. intros idx. rewrite R. unfold selects.
            destruct (Z.eqb_spec (audio_channel st) 0); [contradiction |].
            destruct (Z.even idx).
            - destruct (Z.eqb_spec (audio_channel st) 1); [contradiction |].
              now rewrite andb_false_r.
            - destruct (Z.eqb_spec (audio_channel st) 2); [contradiction |].
              now rewrite andb_false_r. }
          subst buf'. rewrite E1 in E'. injection E' as ->.
          cbn [audio_channel g_audio_buffer trace].
          split; [reflexivity |]. split; [reflexivity |].
          intros frames n Hin. apply in_app_or in Hin as [Hin | Hin]; [now left |].
          right. unfold emitted in Hin.
          rewrite firstn_all2 in Hin by (unfold sized in Hbuf; lia).
          cbn [In] in Hin.
          destruct Hin as [Hin | [Hin | []]]; [discriminate |].
          now injection Hin as <- _.
        + rewrite sdr_callback_cancelled in E1 by exact Hx. injection E1 as <-.
          split; [reflexivity |]. split; [reflexivity |]. intros frames n Hin. now left.
      - injection E1 as <-. cbn [sighandler audio_channel g_audio_buffer trace].
        split; [reflexivity |]. split; [reflexivity |].
        intros frames n Hin. apply in_app_or in Hin as [Hin | Hin]; [now left |].
        cbn [In] in Hin. destruct Hin as [Hin | [Hin | []]]; discriminate. }
    destruct Step as (C1 & B1 & W1).
    destruct (IH st1 st') as [C W].
    { now rewrite C1. }
    { now rewrite C1. }
    { now rewrite C1. }
    { unfold sized in *. now rewrite B1. }
    { exact E. }
    split; [congruence |]. intros frames n Hin.
    destruct (W frames n Hin) as [Hin1 | ->]; [now apply W1 | right; exact B1].
Qed.

Lemma main_exit_facts (r : Z) (st : state A) :
  audio_channel (fst (main_exit A r st)) = audio_channel st /\
  (exists msg, trace (fst (main_exit A r st))
               = trace st ++ [msg; EvSdrClose A; EvPcmDrain A; EvPcmClose A] /\
               is_writei msg = false) /\
  (INT_MIN < r < 2 ^ 31 -> snd (main_exit A r st) = Z.abs r).
Proof.
  unfold main_exit. cbn [fst snd emit audio_channel trace].
  split; [reflexivity |]. split.
  - eexists. split; [reflexivity |]. now destruct (negb (do_exit st =? 0)).
  - intros Hr. unfold INT_MIN in Hr. destruct (Z.geb_spec r 0); [lia |].
    unfold wrap32. rewrite Z.mod_small by lia. lia.
Qed.

End Streaming.


Lemma example_environment_delivers_full_buffers :
  full_buffers (deliveries example_environment).
Proof.
  intros b l Hin. cbn [deliveries example_environment In] in Hin.
  destruct Hin as [E | [E | []]]; [| discriminate].
  injection E as <- _. rewrite constant_buffer_length. lia.
Qed.


Lemma not_read_async (calls : list call) (n len : Z) :
  forallb (fun c => negb (is_read_async c)) calls = true ->
  ~ In (RtlsdrReadAsync n len) calls.
Proof.
  intros F Hin. rewrite forallb_forall in F. specialize (F _ Hin). discriminate.
Qed.

Ltac finish_scan N D :=
  unfold sink_setup, signal_setup;
  cbn [app forallb is_read_async negb andb];
  rewrite ?forallb_app, ?N, ?D; reflexivity.

(** X19. Streaming is reached only through the complete setup. If
    [rtlsdr_read_async] is among the calls of a run of [main], then it was
    asked for the default number of buffers (0) of [SDR_BUFFER_LENGTH] bytes,
    every option was one of the [switch], the sound device was opened and
    configured and the radio found and opened without error, and the calls of
    the run are exactly the sink set-up, the default device search if no [-d]
    was given, and the radio set-up with the frequency, gain and correction of
    the last [-f], [-g] and [-p]. *)
Theorem X19_streaming_implies_setup (A : arith) (env : environment A)
    (opts : list (ascii * string)) (calls : list call) (st : state A) (status n len : Z) :
  main env opts = Some (calls, st, status) ->
  In (RtlsdrReadAsync n len) calls ->
  n = 0 /\ len = SDR_BUFFER_LENGTH /\
  forallb (fun o => known (fst o)) opts = true /\
  0 <= snd_pcm_open env /\
  0 <= snd_pcm_set_params env /\
  0 <= device_index env opts /\
  0 <= rtlsdr_open env (device_index env opts) /\
  calls = sink_setup opts ++ default_search opts ++ radio_setup env opts.
Proof.
  intros E Hin.
  destruct (known_or_not opts) as [K | (pre & opt & optarg & rest & -> & K & U)].
  2:{ rewrite (main_unknown A env pre rest opt optarg K U) in E. injection E as <- _ _.
      exfalso. revert Hin. apply not_read_async.
      destruct (searches_are_not_radio (arguments "d"%char pre)) as [_ N].
      finish_scan N N. }
  rewrite (main_known A env opts K) in E. cbv zeta in E.
  destruct (searches_are_not_radio (arguments "d"%char opts)) as [_ N].
  assert (D := default_search_is_not_radio opts).
  destruct (Z.ltb_spec (snd_pcm_open env) 0) as [Ho | Ho].
  { injection E as <- _ _. exfalso. revert Hin. apply not_read_async.
    finish_scan N N. }
  destruct (Z.ltb_spec (snd_pcm_set_params env) 0) as [Hp | Hp].
  { injection E as <- _ _. exfalso. revert Hin. apply not_read_async.
    finish_scan N N. }
  destruct (Z.ltb_spec (device_index env opts) 0) as [Hi | Hi].
  { injection E as <- _ _. exfalso. revert Hin. apply not_read_async.
    finish_scan N D. }
  destruct (Z.ltb_spec (rtlsdr_open env (device_index env opts)) 0) as [Hr | Hr].
  { injection E as <- _ _. exfalso. revert Hin. apply not_read_async.
    finish_scan N D. }
  destruct (run A (deliveries env) (parsed_state env opts (initial_state A 0)))
    as [st' |]; [| discriminate].
  assert (Ec : sink_setup opts ++ default_search opts ++ radio_setup env opts = calls)
    by (injection E; intros _ _ Ec; exact Ec).
  clear E. subst calls.
  assert (Hn : n = 0 /\ len = SDR_BUFFER_LENGTH).
  { apply in_app_or in Hin as [Hin | Hin].
    { exfalso. revert Hin. apply not_read_async.
      finish_scan N N. }
    apply in_app_or in Hin as [Hin | Hin].
    { exfalso. revert Hin. now apply not_read_async. }
    unfold radio_setup in Hin. cbv zeta in Hin.
    destruct (chosen "g"%char opts _ 0 =? 0); cbn [app In] in Hin;
      repeat (destruct Hin as [Hin | Hin]; [try discriminate |]);
      try contradiction; injection Hin as <- <-; auto. }
  destruct Hn as [-> ->]. repeat (split; [assumption || reflexivity |]). reflexivity.
Qed.

(** A run of [main] with [-c 3] in the example environment. *)
Lemma example_main :
  exists st status,
    main example_environment [("c"%char, "3"%string)] =
      Some (sink_setup [("c"%char, "3"%string)]
            ++ default_search [("c"%char, "3"%string)]
            ++ radio_setup example_environment [("c"%char, "3"%string)], st, status) /\
    audio_channel st = 3 /\
    sink_writes (trace st) = 1%nat.
Proof.
  rewrite (main_known ieee example_environment [("c"%char, "3"%string)] eq_refl).
  cbv zeta.
  change (snd_pcm_open example_environment <? 0) with false.
  change (snd_pcm_set_params example_environment <? 0) with false.
  change (device_index example_environment [("c"%char, "3"%string)] <? 0) with false.
  change (rtlsdr_open example_environment
            (device_index example_environment [("c"%char, "3"%string)]) <? 0) with false.
  cbv iota.
  destruct (run_full ieee (deliveries example_environment)
              (parsed_state example_environment [("c"%char, "3"%string)]
                 (initial_state ieee 0)))
    as (st' & E & C & W);
    [reflexivity | apply (initial_state_sized ieee 0)
     | exact example_environment_delivers_full_buffers |].
  rewrite E. do 2 eexists. split; [reflexivity |].
  destruct (main_exit_facts ieee (rtlsdr_read_async example_environment) st')
    as (C' & (msg & T & M) & _).
  split; [rewrite C', C; reflexivity |].
  rewrite T, sink_writes_app, W. unfold sink_writes at 2. cbn [filter].
  rewrite M. reflexivity.
Qed.

Lemma X19_witness :
  exists calls st status,
    main example_environment [("c"%char, "3"%string)] = Some (calls, st, status) /\
    In (RtlsdrReadAsync 0 SDR_BUFFER_LENGTH) calls /\
    calls = sink_setup [("c"%char, "3"%string)]
            ++ default_search [("c"%char, "3"%string)]
            ++ radio_setup example_environment [("c"%char, "3"%string)].
Proof.
  destruct example_main as (st & status & E & _ & _).
  assert (Hin : In (RtlsdrReadAsync 0 SDR_BUFFER_LENGTH)
                   (sink_setup [("c"%char, "3"%string)]
                    ++ default_search [("c"%char, "3"%string)]
                    ++ radio_setup example_environment [("c"%char, "3"%string)])).
  { cbn. tauto. }
  do 3 eexists. split; [exact E |]. split; [exact Hin |].
  exact (proj2 (proj2 (proj2 (proj2 (proj2 (proj2 (proj2
           (X19_streaming_implies_setup ieee example_environment _ _ _ _ _ _ E Hin)))))))).
Defined.

Lemma run_keeps_channel (A : arith) (os : list occurrence) :
  forall st st' : state A,
    sized st -> run A os st = Some st' -> audio_channel st' = audio_channel st.
Proof.
  induction os as [| o os IH]; intros st st' Hbuf E.
  - now injection E as <-.
  - cbn [run] in E. destruct (occur A o st) as [st1 |] eqn:E1; [| discriminate].
    destruct (occur_keeps A o st st1 Hbuf E1) as (S1 & C1 & _).
    rewrite (IH st1 st' S1 E). exact C1.
Qed.

(** X20. With a routing value other than 0, 1 and 2 the program streams
    silence: whatever the radio delivers and however many buffers, every
    buffer handed to the sink during the run is the zero-initialised array,
    32768 samples all equal to 0. *)
Theorem X20_unrouted_mode_streams_silence (A : arith) (env : environment A)
    (opts : list (ascii * string)) (calls : list call) (st : state A) (status : Z) :
  main env opts = Some (calls, st, status) ->
  audio_channel st <> 0 -> audio_channel st <> 1 -> audio_channel st <> 2 ->
  forall frames n,
    In (EvWritei A frames n) (trace st) ->
    frames = repeat (d_to_flt A (d_of_int A 0))
                    (Z.to_nat (AUDIO_BUFFER_LENGTH * AUDIO_CHANNELS)).
Proof.
  intros E H0 H1 H2 frames n Hin.
  destruct (known_or_not opts) as [K | (pre & opt & optarg & rest & -> & K & U)].
  2:{ rewrite (main_unknown A env pre rest opt optarg K U) in E. injection E as _ <- _.
      contradiction Hin. }
  rewrite (main_known A env opts K) in E. cbv zeta in E.
  destruct (snd_pcm_open env <? 0); [injection E as _ <- _; contradiction Hin |].
  destruct (snd_pcm_set_params env <? 0); [injection E as _ <- _; contradiction Hin |].
  destruct (device_index env opts <? 0); [injection E as _ <- _; contradiction Hin |].
  destruct (rtlsdr_open env (device_index env opts) <? 0);
    [injection E as _ <- _; contradiction Hin |].
  destruct (run A (deliveries env) (parsed_state env opts (initial_state A 0)))
    as [st' |] eqn:R; [| discriminate].
  assert (Es : fst (main_exit A (rtlsdr_read_async env) st') = st)
    by (injection E; intros _ Es _; exact Es).
  clear E. subst st.
  destruct (main_exit_facts A (rtlsdr_read_async env) st') as (C' & (msg & T & M) & _).
  assert (S0 : sized (parsed_state env opts (initial_state A 0)))
    by apply (initial_state_sized A 0).
  assert (C := run_keeps_channel A _ _ _ S0 R).
  rewrite C', C in H0, H1, H2.
  destruct (run_other_channel A _ _ _ H0 H1 H2 S0 R) as [_ W].
  rewrite T in Hin. apply in_app_or in Hin as [Hin | Hin].
  - destruct (W frames n Hin) as [Hin0 | ->]; [contradiction Hin0 | reflexivity].
  - cbn [In] in Hin. destruct Hin as [Hm | [Hin | [Hin | [Hin | []]]]];
      try discriminate Hin.
    rewrite Hm in M. discriminate M.
Qed.

Lemma X20_witness :
  exists calls st status,
    main example_environment [("c"%char, "3"%string)] = Some (calls, st, status) /\
    audio_channel st = 3 /\
    sink_writes (trace st) = 1%nat /\
    forall frames n,
      In (EvWritei ieee frames n) (trace st) ->
      frames = repeat (d_to_flt ieee (d_of_int ieee 0))
                      (Z.to_nat (AUDIO_BUFFER_LENGTH * AUDIO_CHANNELS)).
Proof.
  destruct example_main as (st & status & E & C & W).
  do 3 eexists. split; [exact E |]. split; [exact C |]. split; [exact W |].
  apply (X20_unrouted_mode_streams_silence ieee example_environment _ _ _ _ E);
    rewrite C; discriminate.
Defined.
